(** * pycos: a thin wrapper over an S3-compatible object store

    Shallow embedding of [src/pycos/pycos.py] and the properties of its
    paginated listing ([COSAdmin.bucket_contents]), its tolerant bucket
    listing ([COSAdmin.bucket_list]), its endpoint lookup
    ([COS.url_from_location]) and its context manager ([COSReader]).

    The Python code talks to three collaborators: the object store (through
    the [ibm_boto3] client), the discovery endpoint (through [requests]) and
    the local file system ([tempfile], [open], [os.remove]).  They are
    modelled by an explicit [world] that is threaded through every call:
    the local file system is concrete, the remote services are a state
    machine [environment] the theorems quantify over, and every call that
    leaves the process is appended to a call log. *)

From Stdlib Require Import ZArith Ascii String.
From stdpp Require Import gmap strings list fin_maps.

Local Open Scope string_scope.
Local Open Scope list_scope.

(** ** Python values *)

(** Objects that travel between the wrapper and its collaborators: JSON-like
    data.  A nested [dict] keeps its items in insertion order, since
    iterating a dict yields its keys in that order; its keys are distinct, as
    in every Python dict. *)
#[warnings="-register-all"]
Inductive value : Type :=
| VNone
| VBool (b : bool)
| VInt (n : Z)
| VStr (s : string)
| VList (xs : list value)
| VDict (kvs : list (string * value)).

(** A raised exception: its class name and its argument. *)
Record exn : Type := Exc { exc_class : string; exc_arg : string }.

(** The result of a call that returns normally or raises. *)
Inductive outcome (A : Type) : Type :=
| Ok (a : A)
| Raise (e : exn).
Arguments Ok {A} a.
Arguments Raise {A} e.

(** A response of the [ibm_boto3] client: a dict with string keys, used only
    through key lookup. *)
Abbreviation response := (gmap string value).

(** [bool(v)]: the truth value Python gives an object in an [if]. *)
Definition truthy (v : value) : bool :=
  match v with
  | VNone => false
  | VBool b => b
  | VInt n => negb (n =? 0)%Z
  | VStr s => negb (String.eqb s "")
  | VList xs => match xs with [] => false | _ => true end
  | VDict kvs => match kvs with [] => false | _ => true end
  end.

(** A byte that continues a character in UTF-8, which is how a string holds
    the characters of a Python [str]. *)
Definition is_continuation (c : ascii) : bool :=
  let n := Ascii.N_of_ascii c in
  ((128 <=? n) && (n <? 192))%N.

(** Whether a string starts in the middle of a character. *)
Definition starts_with_continuation (s : string) : bool :=
  match s with
  | String c _ => is_continuation c
  | EmptyString => false
  end.

(** The characters of a string, as Python yields them when it iterates a
    [str]: one-character strings, a character being a byte together with the
    continuation bytes that follow it. *)
Fixpoint chars (s : string) : list value :=
  match s with
  | EmptyString => []
  | String c s' =>
      match chars s' with
      | VStr t :: rest =>
          if starts_with_continuation s' then VStr (String c t) :: rest
          else VStr (String c EmptyString) :: VStr t :: rest
      | rest => VStr (String c EmptyString) :: rest
      end
  end.

(** [iter(v)]: the elements an iterable yields, [None] when the object is not
    iterable. *)
Definition iterate (v : value) : option (list value) :=
  match v with
  | VList xs => Some xs
  | VStr s => Some (chars s)
  | VDict kvs => Some (map (fun kv => VStr (fst kv)) kvs)
  | VNone | VBool _ | VInt _ => None
  end.

(** First binding of a key in the items of a dict. *)
Fixpoint assoc (k : string) (kvs : list (string * value)) : option value :=
  match kvs with
  | [] => None
  | (k', v) :: rest => if String.eqb k k' then Some v else assoc k rest
  end.

(** [str.lower()] on ASCII text: the letters A to Z are mapped to a to z, all
    other characters are kept. *)
Definition ascii_lower (c : ascii) : ascii :=
  let n := Ascii.N_of_ascii c in
  if ((65 <=? n) && (n <=? 90))%N then Ascii.ascii_of_N (n + 32) else c.

Fixpoint lower (s : string) : string :=
  match s with
  | EmptyString => EmptyString
  | String c s' => String (ascii_lower c) (lower s')
  end.

(** [posixpath.join(a, b)]: an absolute second component replaces the
    first. *)
Definition startswith_sep (s : string) : bool :=
  match s with
  | String c _ => Ascii.eqb c "/"
  | EmptyString => false
  end.

Fixpoint endswith_sep (s : string) : bool :=
  match s with
  | EmptyString => false
  | String c EmptyString => Ascii.eqb c "/"
  | String _ s' => endswith_sep s'
  end.

Definition os_path_join (a b : string) : string :=
  if startswith_sep b then b
  else if String.eqb a "" || endswith_sep a then a +:+ b
  else a +:+ "/" +:+ b.

(** [path.split('/')]. *)
Fixpoint split_sep (s : string) : list string :=
  match s with
  | EmptyString => [EmptyString]
  | String c s' =>
      if Ascii.eqb c "/" then EmptyString :: split_sep s'
      else
        match split_sep s' with
        | x :: xs => String c x :: xs
        | [] => [String c EmptyString]
        end
  end.

(** The number of leading slashes [posixpath.normpath] keeps: two when the
    path starts with exactly two, else one or none. *)
Definition initial_slashes (path : string) : nat :=
  if String.prefix "/" path then
    if String.prefix "//" path && negb (String.prefix "///" path) then 2 else 1
  else 0.

(** One pass of the loop of [posixpath.normpath] over the components:
    empty components and ["."] are dropped, [".."] removes the component
    before it where there is one to remove. *)
Definition norm_step (slashes : nat) (new_comps : list string) (comp : string)
  : list string :=
  if String.eqb comp "" || String.eqb comp "." then new_comps
  else if negb (String.eqb comp "..")
          || (Nat.eqb slashes 0 && match new_comps with [] => true | _ => false end)
          || match last new_comps with
             | Some top => String.eqb top ".."
             | None => false
             end
  then new_comps ++ [comp]
  else removelast new_comps.

(** [posixpath.normpath(path)]: the path with its redundant separators and
    its ["."] and [".."] components folded away; two paths with the same
    normal form name the same file. *)
Definition normpath (path : string) : string :=
  if String.eqb path "" then "."
  else
    let slashes := initial_slashes path in
    let comps := fold_left (norm_step slashes) (split_sep path) [] in
    let joined := String.concat "/" comps in
    let result :=
      match slashes with
      | 0 => joined
      | 1 => "/" +:+ joined
      | _ => "//" +:+ joined
      end in
    if String.eqb result "" then "." else result.

(** The components [normpath] keeps when none is [".."]. *)
Definition kept (comp : string) : bool :=
  negb (String.eqb comp "" || String.eqb comp ".").

(** A key that names something inside the directory it is joined to: it
    does not start with a separator and has no component [".."]. *)
Definition names_inside (k : string) : bool :=
  negb (startswith_sep k) && negb (existsb (String.eqb "..") (split_sep k)).

(** ** Calls that leave the process *)

Inductive call : Type :=
| CallHttpGet (url : value)
| CallListBuckets
| CallListObjects (bucket : string) (max_keys : Z) (token : value)
| CallDownload (bucket key path : string)
| CallMkdir (path : string)
| CallOpen (path : string)
| CallClose (handle : nat)
| CallRemove (path : string).

(** ** The collaborators *)

(** The remote services and the operating system's verdicts, as a state
    machine over a state [B] of its own.  [env_io_fault] lets the operating
    system fail a local operation (permissions, I/O errors); [env_random]
    is the next draw of the random generator of [tempfile];
    [env_partial_download] tells whether a download that fails leaves a
    partly written file at the target path. *)
Record environment (B : Type) : Type := Environment {
  env_http_get_json : value -> B -> outcome value * B;
  env_list_buckets_extended : B -> outcome response * B;
  env_list_objects_v2 : string -> Z -> value -> B -> outcome response * B;
  env_download_file : string -> string -> string -> B -> outcome unit * B;
  env_partial_download : string -> string -> string -> B -> bool;
  env_random : B -> nat * B;
  env_io_fault : call -> B -> option exn * B;
}.
Arguments env_http_get_json {B}.
Arguments env_list_buckets_extended {B}.
Arguments env_list_objects_v2 {B}.
Arguments env_download_file {B}.
Arguments env_partial_download {B}.
Arguments env_random {B}.
Arguments env_io_fault {B}.

(** The state every operation runs in. *)
Record world (B : Type) : Type := World {
  w_ext : B;                 (* state of the remote services *)
  w_dirs : gset string;      (* existing local directories *)
  w_files : gset string;     (* existing local regular files *)
  w_open : gset nat;         (* file objects that are open *)
  w_fresh : nat;             (* identity of the next file object *)
  w_calls : list call;       (* calls made so far, oldest first *)
}.
Arguments World {B}.
Arguments w_ext {B}.
Arguments w_dirs {B}.
Arguments w_files {B}.
Arguments w_open {B}.
Arguments w_fresh {B}.
Arguments w_calls {B}.

(** The [ibm_boto3] client handle kept in [self.cos]. *)
Record client : Type := Client {
  aws_access_key_id : value;
  aws_secret_access_key : value;
  endpoint_url : value;
}.

(** Attributes of a [COS] object. *)
Record COS : Type := MkCOS {
  config : value;
  cos : client;
}.

(** Attributes of a [COSReader] object. *)
Record COSReader : Type := MkCOSReader {
  bucket : string;
  key : string;
  open_file : option nat;
  tmp : string;
  base : COS;                (* attributes set by [super().__init__] *)
}.

(** ** The [tempfile] module

    [TMP_MAX] ([os.TMP_MAX] on Linux, 238328), the directory [gettempdir()]
    answers, and the names of [_RandomNameSequence]: eight characters drawn
    from [characters].

    Scope of the model: [gettempdir()] is taken to answer ["/tmp"].  How the
    library chooses that directory the first time it is asked (the
    environment variables it reads, the probe file it writes and removes in
    a candidate directory) is not modelled, so the call log below shows of
    [mkdtemp] only its [mkdir] calls. *)
Definition TMP_MAX : nat := 62 * 62 * 62.

Definition gettempdir : string := "/tmp".

Definition characters : string := "abcdefghijklmnopqrstuvwxyz0123456789_".

Definition choice (n : nat) : ascii :=
  match String.get (n mod 37) characters with
  | Some c => c
  | None => "a"%char
  end.

Fixpoint random_name (len seed : nat) : string :=
  match len with
  | 0 => EmptyString
  | S len' => String (choice seed) (random_name len' (seed / 37))
  end.

(** [os.path.join(dir, prefix + name + suffix)] with the default prefix
    ["tmp"] and the default empty suffix. *)
Definition candidate (seed : nat) : string :=
  os_path_join gettempdir ("tmp" +:+ random_name 8 seed +:+ "").

Section Program.

Context {B : Type} (env : environment B).

(** ** A state and exception monad *)

Definition M (A : Type) : Type := world B -> outcome A * world B.

Definition ret {A} (a : A) : M A := fun w => (Ok a, w).

Definition raise {A} (e : exn) : M A := fun w => (Raise e, w).

Definition bind {A C} (m : M A) (k : A -> M C) : M C :=
  fun w =>
    match m w with
    | (Ok a, w') => k a w'
    | (Raise e, w') => (Raise e, w')
    end.

Notation "x <- m ;; k" := (bind m (fun x => k))
  (at level 100, m at next level, right associativity).
Notation "m ;;; k" := (bind m (fun _ => k))
  (at level 100, right associativity).

(** Record a call in the log. *)
Definition logged (c : call) (w : world B) : world B :=
  World (w_ext w) (w_dirs w) (w_files w) (w_open w) (w_fresh w) (w_calls w ++ [c]).

Definition set_ext (b : B) (w : world B) : world B :=
  World b (w_dirs w) (w_files w) (w_open w) (w_fresh w) (w_calls w).

(** A call to a remote service: logged, answered by the environment. *)
Definition remote {A} (c : call) (h : B -> outcome A * B) : M A :=
  fun w =>
    let w1 := logged c w in
    let '(r, b) := h (w_ext w1) in
    (r, set_ext b w1).

(** A local system call: logged, and failed when the operating system says
    so; otherwise it continues with [k]. *)
Definition syscall {A} (c : call) (k : M A) : M A :=
  fun w =>
    let w1 := logged c w in
    let '(f, b) := env_io_fault env c (w_ext w1) in
    match f with
    | Some e => (Raise e, set_ext b w1)
    | None => k (set_ext b w1)
    end.

(** ** Python primitives *)

(** [d[k]] on a client response. *)
Definition response_getitem (d : response) (k : string) : M value :=
  match d !! k with
  | Some v => ret v
  | None => raise (Exc "KeyError" k)
  end.

(** [v[k]] with a string subscript. *)
Definition getitem (v : value) (k : string) : M value :=
  match v with
  | VDict kvs =>
      match assoc k kvs with
      | Some x => ret x
      | None => raise (Exc "KeyError" k)
      end
  | _ => raise (Exc "TypeError" "subscript")
  end.

(** [files += batch] on a list: extends it with the elements of any
    iterable. *)
Definition list_iadd (files : list value) (batch : value) : M (list value) :=
  match iterate batch with
  | Some xs => ret (files ++ xs)
  | None => raise (Exc "TypeError" "object is not iterable")
  end.

(** ['https://' + url]. *)
Definition str_add (s : string) (v : value) : M value :=
  match v with
  | VStr t => ret (VStr (s +:+ t))
  | _ => raise (Exc "TypeError" "can only concatenate str")
  end.

(** ** Collaborator calls *)

(** [requests.get(url).json()]. *)
Definition requests_get_json (url : value) : M value :=
  remote (CallHttpGet url) (env_http_get_json env url).

Definition list_buckets_extended : M response :=
  remote CallListBuckets (env_list_buckets_extended env).

Definition list_objects_v2 (Bucket : string) (MaxKeys : Z) (ContinuationToken : value)
  : M response :=
  remote (CallListObjects Bucket MaxKeys ContinuationToken)
         (env_list_objects_v2 env Bucket MaxKeys ContinuationToken).

Definition add_file (p : string) (w : world B) : world B :=
  World (w_ext w) (w_dirs w) ({[p]} ∪ w_files w) (w_open w) (w_fresh w) (w_calls w).

(** [self.cos.download_file(bucket, key, path)]: on success the object is
    stored at [path]; on failure a partly written file may be left there. *)
Definition download_file (Bucket Key Filename : string) : M unit :=
  fun w =>
    match remote (CallDownload Bucket Key Filename)
                 (env_download_file env Bucket Key Filename) w with
    | (Ok _, w') => (Ok tt, add_file Filename w')
    | (Raise e, w') =>
        (Raise e,
         if env_partial_download env Bucket Key Filename (w_ext w)
         then add_file Filename w' else w')
    end.

(** [os.mkdir(path)]. *)
Definition os_mkdir (p : string) : M unit :=
  syscall (CallMkdir p) (fun w =>
    if decide (p ∈ w_dirs w ∪ w_files w) then (Raise (Exc "FileExistsError" p), w)
    else (Ok tt, World (w_ext w) ({[p]} ∪ w_dirs w) (w_files w) (w_open w)
                       (w_fresh w) (w_calls w))).

Definition next_candidate : M string :=
  fun w => let '(n, b) := env_random env (w_ext w) in (Ok (candidate n), set_ext b w).

(** [tempfile.mkdtemp()]: tries random names until [os.mkdir] creates one,
    at most [TMP_MAX] times. *)
Fixpoint mkdtemp_from (tries : nat) : M string :=
  match tries with
  | 0 => raise (Exc "FileExistsError" "No usable temporary directory name found")
  | S tries' =>
      fun w =>
        match next_candidate w with
        | (Raise e, w1) => (Raise e, w1)
        | (Ok name, w1) =>
            match os_mkdir name w1 with
            | (Ok _, w2) => (Ok name, w2)
            | (Raise e, w2) =>
                if String.eqb (exc_class e) "FileExistsError"
                then mkdtemp_from tries' w2
                else (Raise e, w2)
            end
        end
  end.

Definition mkdtemp : M string := mkdtemp_from TMP_MAX.

(** [open(path)] for reading: a new open file object. *)
Definition open (p : string) : M nat :=
  syscall (CallOpen p) (fun w =>
    if decide (p ∈ w_files w) then
      (Ok (w_fresh w),
       World (w_ext w) (w_dirs w) (w_files w) ({[w_fresh w]} ∪ w_open w)
             (S (w_fresh w)) (w_calls w))
    else if decide (p ∈ w_dirs w) then (Raise (Exc "IsADirectoryError" p), w)
    else (Raise (Exc "FileNotFoundError" p), w)).

Definition mark_closed (f : nat) (w : world B) : world B :=
  World (w_ext w) (w_dirs w) (w_files w) (w_open w ∖ {[f]}) (w_fresh w) (w_calls w).

(** [f.close()]: closing a closed file does nothing; an open file object is
    closed from then on, also when the operating system reports an error for
    the close. *)
Definition close (f : nat) : M unit :=
  fun w =>
    if decide (f ∈ w_open w) then syscall (CallClose f) (ret tt) (mark_closed f w)
    else (Ok tt, w).

(** The verdict of the operating system on [f.close()], and the state it
    leaves the environment in: none is asked for when the file is closed
    already. *)
Definition close_fault (f : nat) (w : world B) : option exn * B :=
  if decide (f ∈ w_open w) then env_io_fault env (CallClose f) (w_ext w)
  else (None, w_ext w).

(** [os.remove(path)]. *)
Definition os_remove (p : string) : M unit :=
  syscall (CallRemove p) (fun w =>
    if decide (p ∈ w_files w) then
      (Ok tt, World (w_ext w) (w_dirs w) (w_files w ∖ {[p]}) (w_open w)
                    (w_fresh w) (w_calls w))
    else if decide (p ∈ w_dirs w) then (Raise (Exc "IsADirectoryError" p), w)
    else (Raise (Exc "FileNotFoundError" p), w)).

(** ** class COS *)

(** [ibm_boto3.client('s3', ...)]: the handle built from the arguments.
    Scope of the model: the arguments are taken to be acceptable to the
    library; its validation of them (it rejects a malformed endpoint URL or
    half a pair of credentials) and the data files it reads are not
    modelled. *)
Definition ibm_boto3_client (key_id secret endpoint : value) : client :=
  Client key_id secret endpoint.

(** [COS.__init__(self, config, endpoint=None)]; the argument [endpoint] is
    [None] when it is left out, and [if endpoint is None] also holds when
    [None] is passed. *)
Definition COS_init (config : value) (endpoint : option value) : M COS :=
  keys <- getitem config "cos_hmac_keys" ;;
  hmac_key <- getitem keys "access_key_id" ;;
  keys <- getitem config "cos_hmac_keys" ;;
  hmac_secret <- getitem keys "secret_access_key" ;;
  endpoint <- match endpoint with
              | None | Some VNone => getitem config "endpoint"
              | Some e => ret e
              end ;;
  ret (MkCOS config (ibm_boto3_client hmac_key hmac_secret endpoint)).

(** [url_type.lower() in ('public', 'private', 'direct')]. *)
Definition url_type_known (url_type : string) : bool :=
  existsb (String.eqb (lower url_type)) ["public"; "private"; "direct"].

(** [COS.url_from_location(config, location, url_type='public')]. *)
Definition url_from_location (config : value) (location url_type : string) : M value :=
  if negb (url_type_known url_type) then ret VNone
  else
    endpoints <- getitem config "endpoints" ;;
    jsn <- requests_get_json endpoints ;;
    v <- getitem jsn "service-endpoints" ;;
    v <- getitem v "regional" ;;
    v <- getitem v location ;;
    v <- getitem v url_type ;;
    url <- getitem v location ;;
    url <- str_add "https://" url ;;
    ret url.

(** ** class COSAdmin *)

(** [COSAdmin.bucket_list(self)]. *)
Definition bucket_list : M value :=
  rsp <- list_buckets_extended ;;
  if decide ("Buckets" ∈ dom rsp) then response_getitem rsp "Buckets"
  else ret (VList []).

(** One pass through the body of the [while] loop of [bucket_contents]: the
    new values of [files], [more_results] and [next_token]. *)
Definition bucket_contents_body (name : string) (max_keys : Z)
    (next_token : value) (files : list value) : M (list value * bool * value) :=
  response <- list_objects_v2 name max_keys next_token ;;
  batch <- response_getitem response "Contents" ;;
  files <- list_iadd files batch ;;
  truncated <- response_getitem response "IsTruncated" ;;
  if truthy truncated then
    next_token <- response_getitem response "NextContinuationToken" ;;
    ret (files, true, next_token)
  else
    ret (files, false, VStr "").

(** [while more_results: ...], entered with [more_results = True]; [fuel]
    bounds the number of passes, and [None] means the bound was reached with
    the loop still running. *)
Fixpoint bucket_contents_loop (fuel : nat) (name : string) (max_keys : Z)
    (next_token : value) (files : list value) (w : world B)
  : option (outcome (list value) * world B) :=
  match fuel with
  | 0 => None
  | S fuel' =>
      match bucket_contents_body name max_keys next_token files w with
      | (Raise e, w') => Some (Raise e, w')
      | (Ok (files', more_results, next_token'), w') =>
          if more_results
          then bucket_contents_loop fuel' name max_keys next_token' files' w'
          else Some (Ok files', w')
      end
  end.

(** [COSAdmin.bucket_contents(self, name, max_keys=100)]. *)
Definition bucket_contents (fuel : nat) (name : string) (max_keys : Z) (w : world B)
  : option (outcome (list value) * world B) :=
  bucket_contents_loop fuel name max_keys (VStr "") [] w.

(** ** class COSReader *)

(** [COSReader.__init__(self, config, bucket, key)]. *)
Definition COSReader_init (config : value) (bucket key : string) : M COSReader :=
  d <- mkdtemp ;;
  let tmp := os_path_join d key in
  base <- COS_init config None ;;
  ret (MkCOSReader bucket key None tmp base).

(** [COSReader.__enter__(self)]: the object after the call and the value
    returned. *)
Definition COSReader_enter (self : COSReader) : M (COSReader * nat) :=
  download_file (bucket self) (key self) (tmp self) ;;;
  f <- open (tmp self) ;;
  ret (MkCOSReader (bucket self) (key self) (Some f) (tmp self) (base self), f).

(** [COSReader.__exit__(self, except_type, except_value, traceback)]: the
    exception details are not looked at, and the method returns [None]. *)
Definition COSReader_exit (self : COSReader) (exc : option exn) : M value :=
  match open_file self with
  | None => raise (Exc "AttributeError" "close")
  | Some f =>
      close f ;;;
      os_remove (tmp self) ;;;
      ret VNone
  end.

(** [with reader as f: body(f)], by the rules of the [with] statement:
    [__exit__] runs when the body ends or raises, and an exception of the
    body is re-raised unless [__exit__] returns a true value.  The result is
    the value of the body, or [None] when its exception was suppressed. *)
Definition with_COSReader {A} (reader : COSReader) (body : nat -> M A)
  : M (option A) :=
  fun w =>
    match COSReader_enter reader w with
    | (Raise e, w1) => (Raise e, w1)
    | (Ok (self, f), w1) =>
        match body f w1 with
        | (Ok a, w2) =>
            match COSReader_exit self None w2 with
            | (Ok _, w3) => (Ok (Some a), w3)
            | (Raise e', w3) => (Raise e', w3)
            end
        | (Raise e, w2) =>
            match COSReader_exit self (Some e) w2 with
            | (Ok suppress, w3) =>
                if truthy suppress then (Ok None, w3) else (Raise e, w3)
            | (Raise e', w3) => (Raise e', w3)
            end
        end
    end.

End Program.

Arguments M B A : clear implicits.
Arguments ret {B A} a.
Arguments raise {B A} e.

(** The result of a [with] statement whose [__exit__] suppressed nothing:
    the value of the body, or its exception. *)
Definition body_result {A} (res : outcome A) : outcome (option A) :=
  match res with
  | Ok a => Ok (Some a)
  | Raise e => Raise e
  end.

Definition raised {A} (res : outcome A) : option exn :=
  match res with
  | Ok _ => None
  | Raise e => Some e
  end.


(** ** Pages of a listing *)

(** What the loop of [bucket_contents] reads from a page: the entries under
    ["Contents"] ([None] when the field is missing or not iterable), the
    truth value of ["IsTruncated"] and the token. *)
Definition page_entries (p : response) : option (list value) :=
  match p !! "Contents" with
  | Some c => iterate c
  | None => None
  end.

Definition page_truncated (p : response) : option bool :=
  match p !! "IsTruncated" with
  | Some t => Some (truthy t)
  | None => None
  end.

Definition page_token (p : response) : option value := p !! "NextContinuationToken".

Definition entries (p : response) : list value :=
  match page_entries p with
  | Some xs => xs
  | None => []
  end.

(** The requests that fetch the pages [ps] one after the other, the first
    with [tok], each next one with the token of the page before. *)
Fixpoint page_requests (name : string) (max_keys : Z) (tok : value) (ps : list response)
  : list call :=
  match ps with
  | [] => []
  | p :: ps' =>
      CallListObjects name max_keys tok ::
      page_requests name max_keys
        (match page_token p with Some t => t | None => VNone end) ps'
  end.

(** An answer that ends the listing: a failure, or a page whose truncation
    flag is false. *)
Definition final_answer (a : outcome response) : bool :=
  match a with
  | Raise _ => true
  | Ok p =>
      match page_truncated p with
      | Some false => true
      | _ => false
      end
  end.

(** A request to download an object. *)
Definition is_download (c : call) : bool :=
  match c with
  | CallDownload _ _ _ => true
  | _ => false
  end.

(** The calls [tempfile.mkdtemp] makes. *)
Definition is_mkdir (c : call) : bool :=
  match c with
  | CallMkdir _ => true
  | _ => false
  end.

Section Interaction.

Context {B : Type} (env : environment B).

(** [continues name max_keys b tok ps b' tok']: asked for the listing of
    [name] from token [tok] in state [b], the service delivers the pages
    [ps], every one of them with entries, truncated and carrying a next
    token; after the last of them the service is in state [b'] and the token
    to send next is [tok']. *)
Inductive continues (name : string) (max_keys : Z)
  : B -> value -> list response -> B -> value -> Prop :=
| continues_done b tok : continues name max_keys b tok [] b tok
| continues_page b tok p b1 tok1 ps b2 tok2 :
    env_list_objects_v2 env name max_keys tok b = (Ok p, b1) ->
    is_Some (page_entries p) ->
    page_truncated p = Some true ->
    page_token p = Some tok1 ->
    continues name max_keys b1 tok1 ps b2 tok2 ->
    continues name max_keys b tok (p :: ps) b2 tok2.

(** The world after a call [c] that the service answered and that left it in
    state [b]. *)
Definition answered (c : call) (b : B) (w : world B) : world B :=
  set_ext b (logged c w).

(** The world after the calls [cs], with the service left in state [b]. *)
Definition after_calls (cs : list call) (b : B) (w : world B) : world B :=
  World b (w_dirs w) (w_files w) (w_open w) (w_fresh w) (w_calls w ++ cs).

End Interaction.

(** ** A scripted environment

    A concrete environment to run the operations on: the answers of the
    services are read off a script. *)
Module Scripted.

Record script : Type := Script {
  pages : list (outcome response);   (* answers to list_objects_v2, in order *)
  buckets : outcome response;        (* answer to list_buckets_extended *)
  json : outcome value;              (* answer of the discovery endpoint *)
  download : outcome unit;           (* answer to download_file *)
  draws : list nat;                  (* draws of the random generator *)
  faults : list (call * exn);        (* local calls the system fails *)
}.

Definition call_eqb (c1 c2 : call) : bool :=
  match c1, c2 with
  | CallMkdir p, CallMkdir q => String.eqb p q
  | CallOpen p, CallOpen q => String.eqb p q
  | CallClose f, CallClose g => Nat.eqb f g
  | CallRemove p, CallRemove q => String.eqb p q
  | _, _ => false
  end.

Fixpoint fault_of (c : call) (fs : list (call * exn)) : option exn :=
  match fs with
  | [] => None
  | (c', e) :: rest => if call_eqb c c' then Some e else fault_of c rest
  end.

Definition env : environment script := {|
  env_http_get_json := fun _ s => (json s, s);
  env_list_buckets_extended := fun s => (buckets s, s);
  env_list_objects_v2 := fun _ _ _ s =>
    match pages s with
    | [] => (Raise (Exc "EndpointConnectionError" ""), s)
    | a :: rest =>
        (a, Script rest (buckets s) (json s) (download s) (draws s) (faults s))
    end;
  env_download_file := fun _ _ _ s => (download s, s);
  env_partial_download := fun _ _ _ _ => false;
  env_random := fun s =>
    match draws s with
    | [] => (0, s)
    | n :: rest =>
        (n, Script (pages s) (buckets s) (json s) (download s) rest (faults s))
    end;
  env_io_fault := fun c s => (fault_of c (faults s), s);
|}.

(** A world with an empty file system and an empty call log. *)
Definition start (s : script) : world script := World s ∅ ∅ ∅ 0 [].

Definition quiet : script :=
  Script [] (Raise (Exc "ClientError" "AccessDenied"))
         (Raise (Exc "ConnectionError" "")) (Ok tt) [] [].

(** A page of a listing. *)
Definition obj (k : string) : value := VDict [("Key", VStr k)].

Definition page (keys : list string) (truncated : bool) (token : option string)
  : response :=
  let p : response :=
    {[ "Contents" := VList (map obj keys); "IsTruncated" := VBool truncated ]} in
  match token with
  | Some t => <["NextContinuationToken" := VStr t]> p
  | None => p
  end.

(** The script [s] with the listing answers [ps]. *)
Definition listing (ps : list (outcome response)) (s : script) : script :=
  Script ps (buckets s) (json s) (download s) (draws s) (faults s).

(** Bucket "demo": keys a, b in a first page, c in a second and last. *)
Definition page_ab : response := page ["a"; "b"] true (Some "t1").
Definition page_c : response := page ["c"] false None.
Definition two_pages : script := listing [Ok page_ab; Ok page_c] quiet.

(** Bucket "demo": keys a, b, c in one page. *)
Definition page_abc : response := page ["a"; "b"; "c"] false None.
Definition one_page : script := listing [Ok page_abc] quiet.

(** The second request fails. *)
Definition outage : exn := Exc "EndpointConnectionError" "timeout".
Definition second_fails : script := listing [Ok page_ab; Raise outage] quiet.

(** An empty bucket: the page has no field "Contents". *)
Definition page_empty : response :=
  {[ "IsTruncated" := VBool false; "KeyCount" := VInt 0 ]}.
Definition empty_bucket : script := listing [Ok page_empty] quiet.

(** Answers of [list_buckets_extended]. *)
Definition bucket_names : value := VList [VDict [("Name", VStr "x")]; VDict [("Name", VStr "y")]].
Definition with_buckets : script :=
  Script [] (Ok {[ "Buckets" := bucket_names ]}) (json quiet) (download quiet) [] [].
Definition without_buckets : script :=
  Script [] (Ok {[ "Owner" := VStr "me" ]}) (json quiet) (download quiet) [] [].

(** A configuration and a discovery document. *)
Definition cfg : value :=
  VDict [("cos_hmac_keys",
          VDict [("access_key_id", VStr "id"); ("secret_access_key", VStr "secret")]);
         ("endpoint", VStr "https://s3.example");
         ("endpoints", VStr "https://control.example/endpoints")].

Definition discovery_document : value :=
  VDict [("service-endpoints",
          VDict [("regional",
                  VDict [("us-south",
                          VDict [("public",
                                  VDict [("us-south", VStr "s3.us-south.example")])])])])].

Definition discovery : script :=
  Script [] (buckets quiet) (Ok discovery_document) (download quiet) [] [].

(** The object to download does not exist. *)
Definition not_found : exn := Exc "ClientError" "404".
Definition missing_key : script :=
  Script [] (buckets quiet) (json quiet) (Raise not_found) [7] [].

(** The download works; the system fails the close of the first file
    object. *)
Definition io_error : exn := Exc "OSError" "EIO".
Definition close_fails : script :=
  Script [] (buckets quiet) (json quiet) (Ok tt) [7; 8] [(CallClose 0, io_error)].

(** The download works and nothing fails. *)
Definition healthy : script :=
  Script [] (buckets quiet) (json quiet) (Ok tt) [7; 8] [].

(** A body that reads the file and ends, and one that raises. *)
Definition body_reads (f : nat) : M script nat := ret f.
Definition body_raises (f : nat) : M script nat := raise (Exc "ValueError" "bad line").

(** A reader as [COSReader.__init__] leaves it, and as [__enter__] leaves
    it. *)
Definition reader_k : COSReader :=
  MkCOSReader "b" "k" None "/tmp/tmphaaaaaaa/k"
    (MkCOS cfg (Client (VStr "id") (VStr "secret") (VStr "https://s3.example"))).

Definition entered_k : COSReader :=
  MkCOSReader "b" "k" (Some 0) "/tmp/tmphaaaaaaa/k" (base reader_k).

(** The world in which [entered_k] was entered: its file is on disk and
    open. *)
Definition entered (s : script) : world script :=
  World s {["/tmp/tmphaaaaaaa"]} {["/tmp/tmphaaaaaaa/k"]} {[0]} 1 [].

End Scripted.

(** ** A store that pages

    A well-behaved service for one bucket holding the objects [objs]: a
    token names an offset, a page carries the next [max_keys] objects, and a
    bucket without objects answers with a page without ["Contents"]. *)
Module Paged.

Definition offset_of (tok : value) : nat :=
  match tok with
  | VInt n => Z.to_nat n
  | _ => 0
  end.

Definition page_at (objs : list value) (max_keys : Z) (tok : value) : response :=
  let start := offset_of tok in
  let n := Z.to_nat max_keys in
  let rest := drop start objs in
  if decide (n < length rest) then
    {[ "Contents" := VList (take n rest);
       "IsTruncated" := VBool true;
       "NextContinuationToken" := VInt (Z.of_nat (start + n)) ]}
  else
    match rest with
    | [] => {[ "IsTruncated" := VBool false ]}
    | _ => {[ "Contents" := VList rest; "IsTruncated" := VBool false ]}
    end.

Definition env (objs : list value) : environment unit := {|
  env_http_get_json := fun _ s => (Raise (Exc "ConnectionError" ""), s);
  env_list_buckets_extended := fun s => (Ok ∅, s);
  env_list_objects_v2 := fun _ max_keys tok s => (Ok (page_at objs max_keys tok), s);
  env_download_file := fun _ _ _ s => (Ok tt, s);
  env_partial_download := fun _ _ _ _ => false;
  env_random := fun s => (0, s);
  env_io_fault := fun _ s => (None, s);
|}.

(** A defective service: every page is truncated. *)
Definition endless : environment unit := {|
  env_http_get_json := fun _ s => (Raise (Exc "ConnectionError" ""), s);
  env_list_buckets_extended := fun s => (Ok ∅, s);
  env_list_objects_v2 := fun _ _ _ s =>
    (Ok {[ "Contents" := VList [VStr "a"];
           "IsTruncated" := VBool true;
           "NextContinuationToken" := VStr "again" ]}, s);
  env_download_file := fun _ _ _ s => (Ok tt, s);
  env_partial_download := fun _ _ _ _ => false;
  env_random := fun s => (0, s);
  env_io_fault := fun _ s => (None, s);
|}.

End Paged.

(** ** Further scripted cases *)
Module Cases.

Import Scripted.

(** The operating system refuses to open the downloaded file. *)
Definition denied : exn := Exc "PermissionError" "EACCES".
Definition open_denied : script :=
  Script [] (buckets quiet) (json quiet) (Ok tt) [7] [(CallOpen "/tmp/tmphaaaaaaa/k", denied)].

(** A configuration with the HMAC keys and nothing else, and the items of a
    configuration without the discovery URL. *)
Definition keys_only : list (string * value) :=
  [("cos_hmac_keys",
    VDict [("access_key_id", VStr "id"); ("secret_access_key", VStr "secret")])].

(** A body that leaves the world alone. *)
Definition body_idle (f : nat) : M script nat := ret f.

End Cases.

(** ** Further notions for the properties below *)

(** The exception a page makes the loop of [bucket_contents] raise, [None]
    when the loop gets through the page: the fields are read in the order
    ["Contents"], ["IsTruncated"] and, on a true flag,
    ["NextContinuationToken"]. *)
Definition page_error (p : response) : option exn :=
  match p !! "Contents" with
  | None => Some (Exc "KeyError" "Contents")
  | Some batch =>
      match iterate batch with
      | None => Some (Exc "TypeError" "object is not iterable")
      | Some _ =>
          match p !! "IsTruncated" with
          | None => Some (Exc "KeyError" "IsTruncated")
          | Some t =>
              if truthy t then
                match p !! "NextContinuationToken" with
                | None => Some (Exc "KeyError" "NextContinuationToken")
                | Some _ => None
                end
              else None
          end
      end
  end.

(** The exception an answer of the service makes the loop raise: its own,
    or that of a page the loop cannot read. *)
Definition answer_error (a : outcome response) : option exn :=
  match a with
  | Raise e => Some e
  | Ok p => page_error p
  end.

(** A page request for the bucket [name] with page size [max_keys]. *)
Definition is_listing_call (name : string) (max_keys : Z) (c : call) : bool :=
  match c with
  | CallListObjects n m _ => String.eqb n name && (m =? max_keys)%Z
  | _ => false
  end.

(** [v[k1][k2]...] on nested dicts, [None] when a subscript fails. *)
Fixpoint lookup_path (v : value) (ks : list string) : option value :=
  match ks with
  | [] => Some v
  | k :: ks' =>
      match v with
      | VDict kvs =>
          match assoc k kvs with
          | Some x => lookup_path x ks'
          | None => None
          end
      | _ => None
      end
  end.

(** The path [url_from_location] follows in the discovery document. *)
Definition endpoint_path (location url_type : string) : list string :=
  ["service-endpoints"; "regional"; location; url_type; location].

(** * Properties *)

Section Properties.

Context {B : Type} (env : environment B).

(** ** bucket_list *)

(** C9. For every response of the service, [bucket_list] returns the value
    of the field ["Buckets"], untouched and so in the order received, when
    the response has that field, and returns the empty list, without
    raising, when it has not. *)
Theorem bucket_list_tolerant_read (w : world B) :
  forall rsp b,
    env_list_buckets_extended env (w_ext w) = (Ok rsp, b) ->
    (forall descriptors, rsp !! "Buckets" = Some descriptors ->
       bucket_list env w = (Ok descriptors, answered CallListBuckets b w)) /\
    (rsp !! "Buckets" = None ->
       bucket_list env w = (Ok (VList []), answered CallListBuckets b w)).
Proof.
  intros rsp b Hcall.
  unfold bucket_list, bind, list_buckets_extended, remote. simpl.
  rewrite Hcall. split.
  - intros v Hfield.
    rewrite decide_True by (apply elem_of_dom; eauto).
    unfold response_getitem. rewrite Hfield. reflexivity.
  - intros Hfield.
    rewrite decide_False by (rewrite elem_of_dom, Hfield; intros [? ?]; discriminate).
    reflexivity.
Qed.

(** ** url_from_location *)

Lemma url_type_known_false (url_type : string) :
  lower url_type ∉ ["public"; "private"; "direct"] ->
  url_type_known url_type = false.
Proof.
  intros Hnot. unfold url_type_known. simpl.
  destruct (String.eqb_spec (lower url_type) "public") as [E|_];
    [exfalso; apply Hnot; rewrite E; set_solver|].
  destruct (String.eqb_spec (lower url_type) "private") as [E|_];
    [exfalso; apply Hnot; rewrite E; set_solver|].
  destruct (String.eqb_spec (lower url_type) "direct") as [E|_];
    [exfalso; apply Hnot; rewrite E; set_solver|].
  reflexivity.
Qed.

(** C6, as the code has it. For every [url_type] whose lower-case form is
    not one of public, private, direct, [url_from_location] returns [None]
    and leaves the world as it was: no HTTP call is logged, the check comes
    before any I/O. *)
Theorem url_from_location_unknown_type (config : value) (location url_type : string)
    (w : world B) :
  lower url_type ∉ ["public"; "private"; "direct"] ->
  url_from_location env config location url_type w = (Ok VNone, w).
Proof.
  intros Hnot. unfold url_from_location.
  rewrite (url_type_known_false _ Hnot). reflexivity.
Qed.

(** ** bucket_contents *)

(** The body of the loop, case by case on the answer of the service. *)
Lemma bucket_contents_body_eq name max_keys tok files (w : world B) :
  bucket_contents_body env name max_keys tok files w =
  let c := CallListObjects name max_keys tok in
  match env_list_objects_v2 env name max_keys tok (w_ext w) with
  | (Raise e, b) => (Raise e, answered c b w)
  | (Ok p, b) =>
      match p !! "Contents" with
      | None => (Raise (Exc "KeyError" "Contents"), answered c b w)
      | Some batch =>
          match iterate batch with
          | None => (Raise (Exc "TypeError" "object is not iterable"), answered c b w)
          | Some xs =>
              match p !! "IsTruncated" with
              | None => (Raise (Exc "KeyError" "IsTruncated"), answered c b w)
              | Some t =>
                  if truthy t then
                    match p !! "NextContinuationToken" with
                    | None =>
                        (Raise (Exc "KeyError" "NextContinuationToken"), answered c b w)
                    | Some tok' => (Ok (files ++ xs, true, tok'), answered c b w)
                    end
                  else (Ok (files ++ xs, false, VStr ""), answered c b w)
              end
          end
      end
  end.
Proof.
  unfold bucket_contents_body, bind, list_objects_v2, remote, answered. simpl.
  destruct (env_list_objects_v2 env name max_keys tok (w_ext w)) as [[p|e] b]; [|reflexivity].
  unfold response_getitem, list_iadd.
  destruct (p !! "Contents") as [batch|]; [|reflexivity]. simpl.
  destruct (iterate batch) as [xs|]; [|reflexivity]. simpl.
  destruct (p !! "IsTruncated") as [t|]; [|reflexivity]. simpl.
  destruct (truthy t); [|reflexivity].
  destruct (p !! "NextContinuationToken"); reflexivity.
Qed.

Lemma after_calls_answered c cs b1 b2 (w : world B) :
  after_calls (c :: cs) b2 w = after_calls cs b2 (answered c b1 w).
Proof.
  unfold after_calls, answered, set_ext, logged. simpl.
  rewrite <- app_assoc. reflexivity.
Qed.

Lemma after_calls_nil (w : world B) : after_calls [] (w_ext w) w = w.
Proof. destruct w. unfold after_calls. simpl. rewrite app_nil_r. reflexivity. Qed.

(** Pages that keep the loop going are consumed one per pass. *)
Lemma bucket_contents_loop_continues name max_keys b tok ps b1 tok1 :
  continues env name max_keys b tok ps b1 tok1 ->
  forall fuel files (w : world B),
    w_ext w = b ->
    bucket_contents_loop env (length ps + fuel) name max_keys tok files w =
    bucket_contents_loop env fuel name max_keys tok1
      (files ++ concat (entries <$> ps))
      (after_calls (page_requests name max_keys tok ps) b1 w).
Proof.
  induction 1 as [b tok|b tok p b1 tok1 ps b2 tok2 Hcall [xs Hxs] Htr Htok _ IH];
    intros fuel files w Hw.
  - simpl. rewrite app_nil_r. subst b. rewrite after_calls_nil. reflexivity.
  - assert (Hentries : entries p = xs) by (unfold entries; rewrite Hxs; reflexivity).
    simpl. rewrite bucket_contents_body_eq, Hw, Hcall. simpl.
    unfold page_entries, page_truncated, page_token in *.
    destruct (p !! "Contents") as [batch|]; [|discriminate].
    rewrite Hxs.
    destruct (p !! "IsTruncated") as [t|]; [|discriminate].
    injection Htr as ->. rewrite Htok.
    rewrite IH by reflexivity.
    rewrite Hentries, <- app_assoc, <- after_calls_answered. reflexivity.
Qed.

Lemma page_requests_app name max_keys b tok ps b1 tok1 qs :
  continues env name max_keys b tok ps b1 tok1 ->
  page_requests name max_keys tok (ps ++ qs) =
  page_requests name max_keys tok ps ++ page_requests name max_keys tok1 qs.
Proof.
  induction 1 as [|b tok p b1 tok1 ps b2 tok2 _ _ _ Htok _ IH]; [reflexivity|].
  simpl. rewrite Htok, IH. reflexivity.
Qed.

Lemma length_concat_entries (ps : list response) :
  length (concat (entries <$> ps)) = sum_list_with (fun p => length (entries p)) ps.
Proof.
  induction ps as [|p ps IH]; [reflexivity|].
  rewrite fmap_cons. cbn [concat sum_list_with].
  rewrite length_app, IH. reflexivity.
Qed.

(** C1, as the code has it. For every bucket name and every [max_keys], when
    every page the service delivers, the pages [ps] and then a last page that
    is not truncated, carries entries under ["Contents"], [bucket_contents]
    returns the entries of all pages concatenated in the order the pages
    came; the number of entries returned is the sum of the page sizes. *)
Theorem bucket_contents_concatenates_pages name max_keys (w : world B)
    ps b1 tok1 last b2 :
  continues env name max_keys (w_ext w) (VStr "") ps b1 tok1 ->
  env_list_objects_v2 env name max_keys tok1 b1 = (Ok last, b2) ->
  is_Some (page_entries last) ->
  page_truncated last = Some false ->
  forall fuel, length ps < fuel ->
    let delivered := ps ++ [last] in
    let files := concat (entries <$> delivered) in
    bucket_contents env fuel name max_keys w =
      Some (Ok files,
            after_calls (page_requests name max_keys (VStr "") delivered) b2 w) /\
    length files = sum_list_with (fun p => length (entries p)) delivered.
Proof.
  intros Hps Hcall [xs Hxs] Htr fuel Hfuel delivered files.
  split; [|apply length_concat_entries].
  assert (Hentries : entries last = xs) by (unfold entries; rewrite Hxs; reflexivity).
  destruct (Nat.le_exists_sub (S (length ps)) fuel Hfuel) as [k [-> _]].
  replace (k + S (length ps)) with (length ps + S k) by lia.
  unfold bucket_contents.
  rewrite (bucket_contents_loop_continues _ _ _ _ _ _ _ Hps) by reflexivity.
  simpl. rewrite bucket_contents_body_eq. simpl. rewrite Hcall.
  unfold page_entries, page_truncated in *.
  destruct (last !! "Contents") as [batch|]; [|discriminate].
  rewrite Hxs.
  destruct (last !! "IsTruncated") as [t|]; [|discriminate].
  injection Htr as ->.
  subst files delivered.
  rewrite fmap_app, concat_app. simpl.
  rewrite Hentries, app_nil_r.
  rewrite (page_requests_app _ _ _ _ _ _ _ [last] Hps). simpl.
  unfold after_calls, answered, set_ext, logged. simpl.
  rewrite <- app_assoc. reflexivity.
Qed.

(** Every list [bucket_contents] returns is of this form: the service
    delivered pages, the last one not truncated, and the list is their
    concatenation. *)
Lemma bucket_contents_loop_returns fuel :
  forall name max_keys tok acc (w : world B) files w',
    bucket_contents_loop env fuel name max_keys tok acc w = Some (Ok files, w') ->
    exists ps b1 tok1 last,
      continues env name max_keys (w_ext w) tok ps b1 tok1 /\
      env_list_objects_v2 env name max_keys tok1 b1 = (Ok last, w_ext w') /\
      is_Some (page_entries last) /\
      page_truncated last = Some false /\
      files = acc ++ concat (entries <$> (ps ++ [last])).
Proof.
  induction fuel as [|fuel IH]; intros name max_keys tok acc w files w' Hrun;
    [discriminate|].
  simpl in Hrun. rewrite bucket_contents_body_eq in Hrun. simpl in Hrun.
  destruct (env_list_objects_v2 env name max_keys tok (w_ext w)) as [[p|e] b] eqn:Hcall;
    [|discriminate].
  destruct (p !! "Contents") as [batch|] eqn:Hc; [|discriminate].
  destruct (iterate batch) as [xs|] eqn:Hit; [|discriminate].
  destruct (p !! "IsTruncated") as [t|] eqn:Ht; [|discriminate].
  assert (Hpe : page_entries p = Some xs) by (unfold page_entries; rewrite Hc; exact Hit).
  assert (Hentries : entries p = xs) by (unfold entries; rewrite Hpe; reflexivity).
  destruct (truthy t) eqn:Htruthy.
  - destruct (p !! "NextContinuationToken") as [tok'|] eqn:Htok; [|discriminate].
    apply IH in Hrun as (ps & b1 & tok1 & last & Hps & Hlast & Hle & Htr & ->).
    exists (p :: ps), b1, tok1, last. repeat split; try assumption.
    + eapply continues_page; eauto.
      unfold page_truncated. rewrite Ht, Htruthy. reflexivity.
    + simpl. rewrite Hentries, app_assoc. reflexivity.
  - injection Hrun as <- <-.
    exists [], (w_ext w), tok, p. repeat split.
    + constructor.
    + exact Hcall.
    + eauto.
    + unfold page_truncated. rewrite Ht, Htruthy. reflexivity.
    + simpl. rewrite Hentries, app_nil_r. reflexivity.
Qed.

(** C7. When the service, after the pages [ps] that kept the loop going,
    answers a request with a failure or with a page whose truncation flag is
    false, [bucket_contents] ends: with enough fuel for one pass per answer
    it returns or raises.  It has then sent one request per answer and no
    more, and a failed request is not sent again: its exception is the
    result. *)
Theorem bucket_contents_terminates name max_keys (w : world B) ps b1 tok1 a b2 :
  continues env name max_keys (w_ext w) (VStr "") ps b1 tok1 ->
  env_list_objects_v2 env name max_keys tok1 b1 = (a, b2) ->
  final_answer a = true ->
  exists r,
    (forall fuel, length ps < fuel ->
       bucket_contents env fuel name max_keys w =
         Some (r, after_calls (page_requests name max_keys (VStr "") ps ++
                               [CallListObjects name max_keys tok1]) b2 w)) /\
    (forall e, a = Raise e -> r = Raise e).
Proof.
  intros Hps Hcall Hfinal.
  assert (Hstep : forall files,
    exists r,
      bucket_contents_body env name max_keys tok1 files
        (after_calls (page_requests name max_keys (VStr "") ps) b1 w) =
      (r, after_calls (page_requests name max_keys (VStr "") ps ++
                       [CallListObjects name max_keys tok1]) b2 w) /\
      (forall e, a = Raise e -> r = Raise e) /\
      (forall fs tk, r <> Ok (fs, true, tk))).
  { intros files. rewrite bucket_contents_body_eq. simpl. rewrite Hcall.
    unfold answered, after_calls, set_ext, logged. simpl. rewrite <- app_assoc.
    destruct a as [p|e].
    - unfold final_answer, page_truncated in Hfinal.
      destruct (p !! "Contents") as [batch|];
        [|eexists; split; [reflexivity|split; [discriminate|intros ? ?; discriminate]]].
      destruct (iterate batch) as [xs|];
        [|eexists; split; [reflexivity|split; [discriminate|intros ? ?; discriminate]]].
      destruct (p !! "IsTruncated") as [t|]; [|discriminate].
      destruct (truthy t); [discriminate|].
      eexists; split; [reflexivity|split; [discriminate|intros ? ?; discriminate]].
    - eexists; split; [reflexivity|split; [congruence|intros ? ?; discriminate]]. }
  destruct (Hstep (concat (entries <$> ps))) as (r0 & Hbody & Hraise & Hstop).
  exists (match r0 with Ok (files, _, _) => Ok files | Raise e => Raise e end).
  split.
  - intros fuel Hfuel.
    destruct (Nat.le_exists_sub (S (length ps)) fuel Hfuel) as [k [-> _]].
    replace (k + S (length ps)) with (length ps + S k) by lia.
    unfold bucket_contents.
    rewrite (bucket_contents_loop_continues _ _ _ _ _ _ _ Hps) by reflexivity.
    rewrite app_nil_l. cbn [bucket_contents_loop]. rewrite Hbody.
    destruct r0 as [[[files more] tok']|e]; [|reflexivity].
    destruct more; [exfalso; eapply Hstop; reflexivity|reflexivity].
  - intros e He. rewrite (Hraise e He). reflexivity.
Qed.

(** C8, as the code has it. When the first page the service delivers has a
    false truncation flag, [bucket_contents] sends exactly one page request;
    it then returns the entries of that page, in the page's order, when the
    page carries them, and raises [KeyError] when the page has no field
    ["Contents"]. *)
Theorem bucket_contents_single_page name max_keys (w : world B) p b1 :
  env_list_objects_v2 env name max_keys (VStr "") (w_ext w) = (Ok p, b1) ->
  page_truncated p = Some false ->
  forall fuel, 0 < fuel ->
    exists r w',
      bucket_contents env fuel name max_keys w = Some (r, w') /\
      w_calls w' = w_calls w ++ [CallListObjects name max_keys (VStr "")] /\
      w_ext w' = b1 /\
      (forall xs, page_entries p = Some xs -> r = Ok xs) /\
      (p !! "Contents" = None -> r = Raise (Exc "KeyError" "Contents")).
Proof.
  intros Hcall Htr fuel Hfuel.
  destruct fuel as [|fuel]; [lia|].
  unfold bucket_contents. simpl. rewrite bucket_contents_body_eq. simpl. rewrite Hcall.
  unfold page_truncated, page_entries in *.
  destruct (p !! "Contents") as [batch|].
  - destruct (iterate batch) as [xs|].
    + destruct (p !! "IsTruncated") as [t|]; [|discriminate].
      injection Htr as ->.
      do 2 eexists. split; [reflexivity|]. repeat split; [|discriminate].
      intros ? [= <-]. reflexivity.
    + do 2 eexists. split; [reflexivity|]. repeat split; discriminate.
  - do 2 eexists. split; [reflexivity|]. repeat split. discriminate.
Qed.

(** C10. A page without the field ["Contents"] makes [bucket_contents]
    raise [KeyError]: the page is not read as empty, and the entries of the
    pages before it are not returned. *)
Theorem bucket_contents_missing_contents name max_keys (w : world B) ps b1 tok1 p b2 :
  continues env name max_keys (w_ext w) (VStr "") ps b1 tok1 ->
  env_list_objects_v2 env name max_keys tok1 b1 = (Ok p, b2) ->
  p !! "Contents" = None ->
  forall fuel, length ps < fuel ->
    bucket_contents env fuel name max_keys w =
      Some (Raise (Exc "KeyError" "Contents"),
            after_calls (page_requests name max_keys (VStr "") ps ++
                         [CallListObjects name max_keys tok1]) b2 w).
Proof.
  intros Hps Hcall Hmissing fuel Hfuel.
  destruct (Nat.le_exists_sub (S (length ps)) fuel Hfuel) as [k [-> _]].
  replace (k + S (length ps)) with (length ps + S k) by lia.
  unfold bucket_contents.
  rewrite (bucket_contents_loop_continues _ _ _ _ _ _ _ Hps) by reflexivity.
  simpl. rewrite bucket_contents_body_eq. simpl. rewrite Hcall, Hmissing.
  unfold answered, after_calls, set_ext, logged. simpl. rewrite <- app_assoc.
  reflexivity.
Qed.

(** ** COSReader *)

(** C2, as the code has it. When the download fails, [__enter__] raises the
    exception of the client as it is, opens nothing and yields no file
    object, so the body of a [with] statement never runs; it makes no call
    after the failed request and removes nothing: the directories are as
    before, and so are the files, but for what the download left at the temp
    path. *)
Theorem COSReader_enter_download_fails (self : COSReader) (w : world B) e b' :
  env_download_file env (bucket self) (key self) (tmp self) (w_ext w) = (Raise e, b') ->
  exists w',
    COSReader_enter env self w = (Raise e, w') /\
    (forall A (body : nat -> M B A), with_COSReader env self body w = (Raise e, w')) /\
    w_calls w' = w_calls w ++ [CallDownload (bucket self) (key self) (tmp self)] /\
    w_dirs w' = w_dirs w /\ w_open w' = w_open w /\
    (w_files w ⊆ w_files w') /\ (w_files w' ⊆ {[tmp self]} ∪ w_files w).
Proof.
  intros Hdl.
  destruct (COSReader_enter env self w) as [r w'] eqn:Henter.
  unfold COSReader_enter, bind, download_file, remote in Henter. simpl in Henter.
  rewrite Hdl in Henter.
  exists w'.
  assert (Hr : r = Raise e) by
    (destruct (env_partial_download env _ _ _ _); injection Henter as <- _; reflexivity).
  subst r. split; [reflexivity|].
  split.
  { intros A body. unfold with_COSReader, COSReader_enter, bind, download_file, remote.
    simpl. rewrite Hdl.
    destruct (env_partial_download env _ _ _ _); injection Henter as <-; reflexivity. }
  destruct (env_partial_download env _ _ _ _); injection Henter as <-; simpl;
    repeat split; try reflexivity.
  - apply union_subseteq_r.
  - apply union_subseteq_r.
Qed.

(** What [close] does, by the verdict of the operating system. *)
Lemma close_eq f (w : world B) :
  close env f w =
  if decide (f ∈ w_open w) then
    let w1 := logged (CallClose f) (mark_closed f w) in
    match env_io_fault env (CallClose f) (w_ext w) with
    | (Some e, b) => (Raise e, set_ext b w1)
    | (None, b) => (Ok tt, set_ext b w1)
    end
  else (Ok tt, w).
Proof.
  unfold close, syscall. simpl.
  destruct (decide (f ∈ w_open w)) as [Hin|Hout]; [|reflexivity].
  destruct (env_io_fault env (CallClose f) (w_ext w)) as [[e|] b]; reflexivity.
Qed.

(** What [os.remove] changes: it removes at most the file at [p], and
    unless the operating system fails the call the file is absent
    afterwards, removed or never there. *)
Lemma os_remove_effect p (w : world B) r w' :
  os_remove env p w = (r, w') ->
  w_calls w' = w_calls w ++ [CallRemove p] /\
  w_open w' = w_open w /\
  (w_files w' ⊆ w_files w) /\
  (forall x, r = Ok x -> p ∉ w_files w') /\
  (forall b, env_io_fault env (CallRemove p) (w_ext w) = (None, b) -> p ∉ w_files w').
Proof.
  unfold os_remove, syscall. simpl.
  destruct (env_io_fault env (CallRemove p) (w_ext w)) as [[e|] b].
  - intros [= <- <-]. simpl. repeat split; try reflexivity; discriminate.
  - simpl. destruct (decide (p ∈ w_files w)) as [Hin|Hout].
    + intros [= <- <-]. simpl. repeat split.
      * apply subseteq_difference_l. reflexivity.
      * intros _ _. apply not_elem_of_difference. right. apply elem_of_singleton. reflexivity.
      * intros _ _. apply not_elem_of_difference. right. apply elem_of_singleton. reflexivity.
    + destruct (decide (p ∈ w_dirs w)); intros [= <- <-]; simpl;
        (repeat split; try reflexivity; try discriminate; intros _ _; exact Hout).
Qed.

(** C3, as the code has it. [__exit__] closes the file object first.  When
    the close succeeds, or the file was closed already, [os.remove] is called
    on the temp path, once.  When the close fails, its exception is raised at
    once and no removal is attempted: the files on disk are as before. *)
Theorem COSReader_exit_close_then_remove (self : COSReader) f exc (w : world B) :
  open_file self = Some f ->
  exists r w',
    COSReader_exit env self exc w = (r, w') /\
    if decide (f ∈ w_open w) then
      match env_io_fault env (CallClose f) (w_ext w) with
      | (Some e, _) =>
          r = Raise e /\
          w_calls w' = w_calls w ++ [CallClose f] /\
          w_files w' = w_files w
      | (None, _) =>
          w_calls w' = w_calls w ++ [CallClose f; CallRemove (tmp self)]
      end
    else w_calls w' = w_calls w ++ [CallRemove (tmp self)].
Proof.
  intros Hopen. unfold COSReader_exit, bind. rewrite Hopen, close_eq.
  destruct (decide (f ∈ w_open w)) as [Hin|Hout].
  - simpl. destruct (env_io_fault env (CallClose f) (w_ext w)) as [[e|] b].
    + do 2 eexists. split; [reflexivity|]. repeat split.
    + destruct (os_remove env (tmp self) _) as [r1 w1] eqn:Hrm.
      apply os_remove_effect in Hrm as (Hcalls & _).
      simpl in Hcalls. rewrite <- app_assoc in Hcalls. simpl in Hcalls.
      destruct r1; do 2 eexists; (split; [reflexivity|exact Hcalls]).
  - destruct (os_remove env (tmp self) w) as [r1 w1] eqn:Hrm.
    apply os_remove_effect in Hrm as (Hcalls & _).
    destruct r1; do 2 eexists; (split; [reflexivity|exact Hcalls]).
Qed.

Lemma closed_not_open (f : nat) (s : gset nat) : f ∉ s ∖ {[f]}.
Proof. apply not_elem_of_difference. right. apply elem_of_singleton. reflexivity. Qed.

(** [__exit__] leaves the file object closed, whatever else happens, and
    the temp file absent when it returns, or when the operating system fails
    neither the close nor the removal. *)
Lemma COSReader_exit_effect (self : COSReader) f exc (w : world B) r w' :
  open_file self = Some f ->
  COSReader_exit env self exc w = (r, w') ->
  (f ∉ w_open w') /\
  (forall v, r = Ok v -> v = VNone /\ (tmp self ∉ w_files w')) /\
  (forall b1 b2,
      close_fault env f w = (None, b1) ->
      env_io_fault env (CallRemove (tmp self)) b1 = (None, b2) ->
      tmp self ∉ w_files w').
Proof.
  intros Hopen. unfold COSReader_exit, bind, close_fault. rewrite Hopen, close_eq.
  destruct (decide (f ∈ w_open w)) as [Hin|Hout].
  - simpl. destruct (env_io_fault env (CallClose f) (w_ext w)) as [[e|] b].
    + intros [= <- <-]. simpl.
      split; [apply closed_not_open|]. split; discriminate.
    + destruct (os_remove env (tmp self) _) as [r1 w1] eqn:Hrm.
      apply os_remove_effect in Hrm as (_ & Hop & _ & Hgone & Hnofault).
      simpl in Hop, Hnofault.
      assert (Hfinal : forall b1 b2,
                 (None : option exn, b) = (None, b1) ->
                 env_io_fault env (CallRemove (tmp self)) b1 = (None, b2) ->
                 tmp self ∉ w_files w1).
      { intros b1 b2 [= <-] Hrm. exact (Hnofault b2 Hrm). }
      destruct r1 as [[]|e]; intros [= <- <-].
      * split; [rewrite Hop; apply closed_not_open|]. split; [|exact Hfinal].
        intros v [= <-]. split; [reflexivity|]. eapply Hgone. reflexivity.
      * split; [rewrite Hop; apply closed_not_open|]. split; [discriminate|exact Hfinal].
  - destruct (os_remove env (tmp self) w) as [r1 w1] eqn:Hrm.
    apply os_remove_effect in Hrm as (_ & Hop & _ & Hgone & Hnofault).
    assert (Hfinal : forall b1 b2,
               (None : option exn, w_ext w) = (None, b1) ->
               env_io_fault env (CallRemove (tmp self)) b1 = (None, b2) ->
               tmp self ∉ w_files w1).
    { intros b1 b2 [= <-] Hrm. exact (Hnofault b2 Hrm). }
    destruct r1 as [[]|e]; intros [= <- <-].
    + split; [rewrite Hop; exact Hout|]. split; [|exact Hfinal].
      intros v [= <-]. split; [reflexivity|]. eapply Hgone. reflexivity.
    + split; [rewrite Hop; exact Hout|]. split; [discriminate|exact Hfinal].
Qed.

(** What [__enter__] leaves in the object it returns. *)
Lemma COSReader_enter_self (reader : COSReader) (w : world B) self f w1 :
  COSReader_enter env reader w = (Ok (self, f), w1) ->
  open_file self = Some f /\ tmp self = tmp reader.
Proof.
  unfold COSReader_enter, bind. intros Henter.
  destruct (download_file env _ _ _ w) as [[[]|e] wd]; [|discriminate].
  destruct (open env (tmp reader) wd) as [[g|e] wo]; [|discriminate].
  injection Henter as <- <- <-. split; reflexivity.
Qed.

(** C4, as the code has it. For every scope that was entered, whether the
    body ends normally or raises, [__exit__] runs and the file object is
    closed afterwards; the temp file is absent afterwards unless the
    operating system fails the close or the removal; and when [__exit__]
    returns, the outcome of the [with] statement is the outcome of the
    body. *)
Theorem with_COSReader_releases {A} (reader : COSReader) (body : nat -> M B A)
    (w : world B) self f w1 res w2 :
  COSReader_enter env reader w = (Ok (self, f), w1) ->
  body f w1 = (res, w2) ->
  exists xr r w3,
    COSReader_exit env self (raised res) w2 = (xr, w3) /\
    with_COSReader env reader body w = (r, w3) /\
    (f ∉ w_open w3) /\
    (forall b1 b2,
        close_fault env f w2 = (None, b1) ->
        env_io_fault env (CallRemove (tmp reader)) b1 = (None, b2) ->
        tmp reader ∉ w_files w3) /\
    (forall v, xr = Ok v -> (tmp reader ∉ w_files w3) /\ r = body_result res).
Proof.
  intros Henter Hbody.
  destruct (COSReader_enter_self _ _ _ _ _ Henter) as [Hopen Htmp].
  destruct (COSReader_exit env self (raised res) w2) as [xr w3] eqn:Hexit.
  destruct (COSReader_exit_effect _ _ _ _ _ _ Hopen Hexit) as (Hclosed & Hgone & Hnofault).
  rewrite Htmp in Hgone, Hnofault.
  unfold with_COSReader. rewrite Henter, Hbody.
  exists xr.
  destruct res as [a|e]; simpl in Hexit; rewrite Hexit.
  - destruct xr as [v|e'].
    + exists (Ok (Some a)), w3. do 3 (split; [assumption || reflexivity|]).
      split; [exact Hnofault|].
      intros v' Hv. split; [exact (proj2 (Hgone v' Hv))|reflexivity].
    + exists (Raise e'), w3. do 3 (split; [assumption || reflexivity|]).
      split; [exact Hnofault|discriminate].
  - destruct xr as [v|e'].
    + destruct (Hgone v eq_refl) as [-> Hg]. simpl.
      exists (Raise e), w3. do 3 (split; [assumption || reflexivity|]).
      split; [exact Hnofault|].
      intros v' _. split; [exact Hg|reflexivity].
    + exists (Raise e'), w3. do 3 (split; [assumption || reflexivity|]).
      split; [exact Hnofault|discriminate].
Qed.

(** *** The temp directory *)

Lemma choice_not_sep n : choice n <> "/"%char.
Proof.
  unfold choice.
  assert (Hlt : n mod 37 < 37) by (apply Nat.mod_upper_bound; discriminate).
  revert Hlt. generalize (n mod 37). intros m Hlt.
  do 37 (destruct m as [|m]; [vm_compute; discriminate|]).
  lia.
Qed.

Lemma candidate_length seed : String.length (candidate seed) = 16.
Proof. reflexivity. Qed.

Lemma candidate_no_trailing_sep seed : endswith_sep (candidate seed) = false.
Proof.
  unfold candidate, os_path_join. cbn.
  apply Ascii.eqb_neq, choice_not_sep.
Qed.

Lemma candidate_join seed key :
  startswith_sep key = false ->
  os_path_join (candidate seed) key = candidate seed +:+ "/" +:+ key.
Proof.
  intros Hrel. unfold os_path_join at 1.
  rewrite Hrel, candidate_no_trailing_sep. reflexivity.
Qed.

Lemma append_same_length_inj (a a' x y : string) :
  String.length a = String.length a' -> a +:+ x = a' +:+ y -> a = a'.
Proof.
  revert a'. induction a as [|c a IH]; intros [|c' a'] Hlen Heq;
    try discriminate; [reflexivity|].
  simpl in *. injection Heq as -> Heq. f_equal. apply IH; [lia|exact Heq].
Qed.

Lemma os_mkdir_effect p (w : world B) r w' :
  os_mkdir env p w = (r, w') ->
  w_files w' = w_files w /\ w_open w' = w_open w /\
  w_calls w' = w_calls w ++ [CallMkdir p] /\
  match r with
  | Ok _ => (p ∉ w_dirs w) /\ w_dirs w' = {[p]} ∪ w_dirs w
  | Raise _ => w_dirs w' = w_dirs w
  end.
Proof.
  unfold os_mkdir, syscall. simpl.
  destruct (env_io_fault env (CallMkdir p) (w_ext w)) as [[e|] b].
  - intros [= <- <-]. repeat split.
  - simpl. destruct (decide (p ∈ w_dirs w ∪ w_files w)) as [Hin|Hout];
      intros [= <- <-]; simpl; repeat split.
    intros Hd. apply Hout, elem_of_union. left. exact Hd.
Qed.

(** [mkdtemp] creates one directory, which was not there, and touches
    nothing else; all its calls are [mkdir]. *)
Lemma mkdtemp_from_effect tries :
  forall (w : world B) d w',
    mkdtemp_from env tries w = (Ok d, w') ->
    (exists seed, d = candidate seed) /\
    (d ∉ w_dirs w) /\
    w_dirs w' = {[d]} ∪ w_dirs w /\
    w_files w' = w_files w /\ w_open w' = w_open w /\
    exists cs, w_calls w' = w_calls w ++ cs /\ forallb is_mkdir cs = true.
Proof.
  induction tries as [|tries IH]; intros w d w' Hrun; [discriminate|].
  simpl in Hrun. unfold next_candidate in Hrun.
  destruct (env_random env (w_ext w)) as [seed b].
  destruct (os_mkdir env (candidate seed) (set_ext b w)) as [[[]|e] w1] eqn:Hmk;
    apply os_mkdir_effect in Hmk as (Hf & Ho & Hc & Hd); simpl in Hf, Ho, Hc, Hd.
  - injection Hrun as <- <-. destruct Hd as [Hnew Hd].
    split; [eexists; reflexivity|]. do 4 (split; [assumption|]).
    exists [CallMkdir (candidate seed)]. split; [exact Hc|reflexivity].
  - destruct (String.eqb (exc_class e) "FileExistsError"); [|discriminate].
    apply IH in Hrun as (Hseed & Hnew & Hd' & Hf' & Ho' & cs & Hc' & Hcs).
    rewrite Hd in Hnew, Hd'. rewrite Hf in Hf'. rewrite Ho in Ho'.
    do 5 (split; [assumption|]).
    exists (CallMkdir (candidate seed) :: cs). split; [|exact Hcs].
    rewrite Hc', Hc, <- app_assoc. reflexivity.
Qed.

(** [COS.__init__] only reads the configuration. *)
Lemma getitem_pure v k (w : world B) : snd (getitem v k w) = w.
Proof.
  unfold getitem. destruct v; try reflexivity.
  destruct (assoc k kvs); reflexivity.
Qed.

Lemma COS_init_pure cfg endpoint (w : world B) : snd (COS_init cfg endpoint w) = w.
Proof.
  assert (Hbind : forall A C (m : M B A) (k : A -> M B C) (w0 : world B),
             snd (m w0) = w0 -> (forall a, snd (k a w0) = w0) ->
             snd (bind m k w0) = w0).
  { intros A C m k w0 Hm Hk. unfold bind.
    destruct (m w0) as [[a|e] w1]; simpl in Hm; subst w1; [apply Hk|reflexivity]. }
  unfold COS_init.
  do 4 (apply Hbind; [apply getitem_pure|intros ?]).
  apply Hbind; [|reflexivity].
  destruct endpoint as [[]|]; first [apply getitem_pure|reflexivity].
Qed.

Lemma COSReader_init_inv cfg b k (w : world B) r w' :
  COSReader_init env cfg b k w = (Ok r, w') ->
  exists d,
    mkdtemp env w = (Ok d, w') /\ tmp r = os_path_join d k /\ open_file r = None.
Proof.
  unfold COSReader_init, bind. intros Hrun.
  destruct (mkdtemp env w) as [[d|e] w1]; [|discriminate].
  pose proof (COS_init_pure cfg None w1) as Hpure.
  destruct (COS_init cfg None w1) as [[c|e] w2]; [|discriminate].
  simpl in Hpure. subst w2. injection Hrun as <- <-.
  exists d. repeat split.
Qed.

(** *** The temp path, normalised *)

Lemma string_app_cons (x : ascii) (a b : string) :
  String x a +:+ b = String x (a +:+ b).
Proof. reflexivity. Qed.

Lemma string_app_nil (b : string) : "" +:+ b = b.
Proof. reflexivity. Qed.

Lemma split_sep_not_nil (s : string) : split_sep s <> [].
Proof.
  destruct s as [|c s]; simpl; [discriminate|].
  destruct (Ascii.eqb c "/"); [discriminate|].
  destruct (split_sep s); discriminate.
Qed.

Lemma split_sep_app (a b : string) :
  split_sep (a +:+ "/" +:+ b) = split_sep a ++ split_sep b.
Proof.
  induction a as [|c a IH]; [reflexivity|].
  rewrite string_app_cons. cbn [split_sep]. rewrite IH.
  destruct (Ascii.eqb c "/"); [reflexivity|].
  pose proof (split_sep_not_nil a) as Hne.
  destruct (split_sep a) as [|x xs]; [congruence|reflexivity].
Qed.

Lemma split_sep_random_name len seed :
  split_sep (random_name len seed +:+ "") = [random_name len seed +:+ ""].
Proof.
  revert seed. induction len as [|len IH]; intros seed; [reflexivity|].
  cbn [random_name]. rewrite string_app_cons. cbn [split_sep]. rewrite IH.
  rewrite (proj2 (Ascii.eqb_neq _ _) (choice_not_sep seed)). reflexivity.
Qed.

Lemma fold_norm_step_inside slashes (ks : list string) :
  existsb (String.eqb "..") ks = false ->
  forall acc, fold_left (norm_step slashes) ks acc = acc ++ List.filter kept ks.
Proof.
  induction ks as [|k ks IH]; intros Hno acc; [rewrite app_nil_r; reflexivity|].
  cbn [existsb] in Hno. apply orb_false_iff in Hno as [Hk Hks].
  cbn [fold_left List.filter]. rewrite (IH Hks).
  unfold norm_step, kept.
  destruct (String.eqb k "" || String.eqb k "."); cbn [negb]; [reflexivity|].
  rewrite String.eqb_sym in Hk. rewrite Hk. cbn [negb orb].
  rewrite <- app_assoc. reflexivity.
Qed.

Lemma string_app_nil_r (a : string) : a +:+ "" = a.
Proof.
  induction a as [|x a IH]; [reflexivity|].
  rewrite string_app_cons, IH. reflexivity.
Qed.

Lemma concat_sep_cons (x : string) (rest : list string) :
  exists t, String.concat "/" (x :: rest) = x +:+ t.
Proof.
  destruct rest as [|y rest].
  - exists "". cbn [String.concat]. rewrite string_app_nil_r. reflexivity.
  - eexists. cbn [String.concat]. reflexivity.
Qed.

(** The normal form of a path into a directory [/tmp/D], by a key with no
    component [".."], starts with the directory. *)
Lemma normpath_under (D k : string) :
  String.eqb D "" = false -> String.eqb D "." = false -> String.eqb ".." D = false ->
  split_sep D = [D] ->
  existsb (String.eqb "..") (split_sep k) = false ->
  exists rest, normpath (("/tmp/" +:+ D) +:+ "/" +:+ k) = ("/tmp/" +:+ D) +:+ rest.
Proof.
  intros Hne Hnd Hndd HD Hno.
  assert (Hsplit : split_sep (("/tmp/" +:+ D) +:+ "/" +:+ k) =
                   [""; "tmp"; D] ++ split_sep k).
  { rewrite split_sep_app. f_equal.
    rewrite !string_app_cons, string_app_nil.
    cbn [split_sep Ascii.eqb Bool.eqb]. rewrite HD. reflexivity. }
  assert (Hslashes : initial_slashes (("/tmp/" +:+ D) +:+ "/" +:+ k) = 1).
  { rewrite !string_app_cons. reflexivity. }
  assert (Hnonempty : forall t, String.eqb ("/" +:+ t) "" = false).
  { intros t. rewrite string_app_cons. reflexivity. }
  unfold normpath. rewrite Hslashes, Hsplit.
  replace (String.eqb (("/tmp/" +:+ D) +:+ "/" +:+ k) "") with false
    by (rewrite !string_app_cons; reflexivity).
  rewrite fold_norm_step_inside.
  2: { cbn [app existsb]. rewrite Hndd, Hno. reflexivity. }
  assert (Hkept : List.filter kept ([""; "tmp"; D] ++ split_sep k) =
                  "tmp" :: D :: List.filter kept (split_sep k)).
  { assert (HkD : kept D = true) by (unfold kept; rewrite Hne, Hnd; reflexivity).
    cbn [app List.filter]. rewrite HkD. reflexivity. }
  rewrite Hkept, app_nil_l.
  destruct (concat_sep_cons D (List.filter kept (split_sep k))) as [t Ht].
  change (String.concat "/" ("tmp" :: D :: List.filter kept (split_sep k)))
    with ("tmp" +:+ "/" +:+ String.concat "/" (D :: List.filter kept (split_sep k))).
  rewrite Ht, Hnonempty.
  exists t. reflexivity.
Qed.

(** For a key that names something inside, the normal form of the temp path
    starts with the directory made for the reader. *)
Lemma normpath_inside seed k :
  names_inside k = true ->
  exists rest, normpath (candidate seed +:+ "/" +:+ k) = candidate seed +:+ rest.
Proof.
  intros Hin. unfold names_inside in Hin.
  apply andb_true_iff in Hin as [_ Hno]. apply negb_true_iff in Hno.
  assert (Hc : candidate seed = "/tmp/" +:+ ("tmp" +:+ (random_name 8 seed +:+ "")))
    by reflexivity.
  rewrite Hc. apply normpath_under; try (rewrite !string_app_cons; reflexivity); [|exact Hno].
  rewrite !string_app_cons, string_app_nil. cbn [split_sep Ascii.eqb Bool.eqb].
  rewrite split_sep_random_name. reflexivity.
Qed.

(** C5, as the code has it. Constructing a [COSReader] does perform I/O:
    it calls [tempfile.mkdtemp], which creates a directory that was not
    there before.  It requests no download and does not open the temp path:
    [open_file] is [None].  The temp path is [os.path.join] of that
    directory and the key.  For a key that does not start with ["/"] and has
    no component [".."], the path is the directory, a separator and the key,
    its normal form lies inside the directory, and it names another file
    than the temp path of every reader constructed, for such a key, while
    the directory exists. *)
Theorem COSReader_init_fresh_path cfg b k (w : world B) r w' :
  COSReader_init env cfg b k w = (Ok r, w') ->
  exists d,
    (d ∉ w_dirs w) /\ w_dirs w' = {[d]} ∪ w_dirs w /\
    tmp r = os_path_join d k /\ open_file r = None /\
    (exists cs, w_calls w' = w_calls w ++ cs /\
                existsb is_download cs = false /\ (CallOpen (tmp r) ∉ cs)) /\
    (names_inside k = true ->
       tmp r = d +:+ "/" +:+ k /\
       (exists rest, normpath (tmp r) = d +:+ rest) /\
       forall cfg2 b2 k2 (w2 : world B) r2 w2',
         d ∈ w_dirs w2 ->
         names_inside k2 = true ->
         COSReader_init env cfg2 b2 k2 w2 = (Ok r2, w2') ->
         tmp r2 <> tmp r /\ normpath (tmp r2) <> normpath (tmp r)).
Proof.
  intros Hrun.
  apply COSReader_init_inv in Hrun as (d & Hmk & Htmp & Hnone).
  apply mkdtemp_from_effect in Hmk as ([seed ->] & Hnew & Hd & _ & _ & cs & Hcs & Hall).
  exists (candidate seed). do 4 (split; [assumption|]).
  split.
  { exists cs. split; [exact Hcs|].
    assert (Hmkdirs : forall c, c ∈ cs -> is_mkdir c = true).
    { intros c Hc. apply list_elem_of_In in Hc.
      exact (proj1 (forallb_forall is_mkdir cs) Hall c Hc). }
    split.
    - destruct (existsb is_download cs) eqn:Hex; [|reflexivity].
      apply existsb_exists in Hex as (c & Hc & Hdl).
      apply list_elem_of_In, Hmkdirs in Hc. destruct c; discriminate.
    - intros Hc. apply Hmkdirs in Hc. discriminate. }
  intros Hin.
  assert (Hrel : startswith_sep k = false).
  { unfold names_inside in Hin. apply andb_true_iff in Hin as [Hrel _].
    apply negb_true_iff in Hrel. exact Hrel. }
  rewrite candidate_join in Htmp by exact Hrel.
  destruct (normpath_inside seed k Hin) as [rest Hnorm].
  split; [exact Htmp|]. split; [exists rest; rewrite Htmp; exact Hnorm|].
  intros cfg2 b2 k2 w2 r2 w2' Hstill Hin2 Hrun2.
  apply COSReader_init_inv in Hrun2 as (d2 & Hmk2 & Htmp2 & _).
  apply mkdtemp_from_effect in Hmk2 as ([seed2 ->] & Hnew2 & _).
  assert (Hrel2 : startswith_sep k2 = false).
  { unfold names_inside in Hin2. apply andb_true_iff in Hin2 as [Hrel2 _].
    apply negb_true_iff in Hrel2. exact Hrel2. }
  rewrite candidate_join in Htmp2 by exact Hrel2.
  destruct (normpath_inside seed2 k2 Hin2) as [rest2 Hnorm2].
  assert (Hdiff : normpath (tmp r2) <> normpath (tmp r)).
  { rewrite Htmp, Htmp2, Hnorm, Hnorm2. intros Hsame.
    apply append_same_length_inj in Hsame; [|reflexivity].
    apply Hnew2. rewrite Hsame. exact Hstill. }
  split; [|exact Hdiff].
  intros Hsame. apply Hdiff. rewrite Hsame. reflexivity.
Qed.

End Properties.

(** * The properties on concrete runs *)

Import Scripted.

(** The two cases of C9 on scripted answers: a response with two bucket
    descriptors, and one without the field. *)
Lemma bucket_list_tolerant_read_witness :
  bucket_list env (start with_buckets) =
    (Ok bucket_names, answered CallListBuckets with_buckets (start with_buckets)) /\
  bucket_list env (start without_buckets) =
    (Ok (VList []), answered CallListBuckets without_buckets (start without_buckets)).
Proof.
  split.
  - apply (proj1 (bucket_list_tolerant_read env (start with_buckets)
                    {[ "Buckets" := bucket_names ]} with_buckets eq_refl)).
    reflexivity.
  - apply (proj2 (bucket_list_tolerant_read env (start without_buckets)
                    {[ "Owner" := VStr "me" ]} without_buckets eq_refl)).
    reflexivity.
Defined.

(** C6 fails as stated: "PUBLIC" is not one of public, private, direct, yet
    the discovery endpoint is called, and the result is not [None]: the
    upper-case name is then looked up in the document as it was given. *)
Lemma url_from_location_upper_case_calls :
  ("PUBLIC" ∉ ["public"; "private"; "direct"]) /\
  exists w',
    url_from_location env cfg "us-south" "PUBLIC" (start discovery) =
      (Raise (Exc "KeyError" "PUBLIC"), w') /\
    w_calls w' = [CallHttpGet (VStr "https://control.example/endpoints")].
Proof.
  split.
  - intros Hin. repeat (apply elem_of_cons in Hin as [Heq|Hin]; [discriminate Heq|]).
    apply elem_of_nil in Hin. exact Hin.
  - eexists. split; vm_compute; reflexivity.
Qed.

(** The type "internal" is refused before anything is asked of the network. *)
Lemma url_from_location_unknown_type_witness :
  url_from_location env cfg "us-south" "internal" (start discovery) =
    (Ok VNone, start discovery).
Proof.
  apply url_from_location_unknown_type.
  intros Hin. repeat (apply elem_of_cons in Hin as [Heq|Hin]; [discriminate Heq|]).
  apply elem_of_nil in Hin. exact Hin.
Defined.

(** C1 fails as stated: for an empty bucket the store delivers one page,
    not truncated and without the field ["Contents"]; the concatenation of
    the entries of the delivered pages is the empty list, yet
    [bucket_contents] returns nothing: it raises [KeyError], for the page
    sizes 1, 10 and 100 alike. *)
Lemma bucket_contents_empty_bucket_raises :
  let w := World tt ∅ ∅ ∅ 0 [] in
  let p := Paged.page_at [] 100 (VStr "") in
  env_list_objects_v2 (Paged.env []) "demo" 100 (VStr "") tt = (Ok p, tt) /\
  page_truncated p = Some false /\
  concat (entries <$> [p]) = [] /\
  bucket_contents (Paged.env []) 1 "demo" 1 w =
    Some (Raise (Exc "KeyError" "Contents"), answered (CallListObjects "demo" 1 (VStr "")) tt w) /\
  bucket_contents (Paged.env []) 1 "demo" 10 w =
    Some (Raise (Exc "KeyError" "Contents"), answered (CallListObjects "demo" 10 (VStr "")) tt w) /\
  bucket_contents (Paged.env []) 1 "demo" 100 w =
    Some (Raise (Exc "KeyError" "Contents"), answered (CallListObjects "demo" 100 (VStr "")) tt w).
Proof. repeat split; vm_compute; reflexivity. Qed.

(** C8 fails as stated: the first and only page of an empty bucket has a
    false truncation flag; one request is sent, and the entries of the page,
    none, are not returned: [KeyError] is raised. *)
Lemma bucket_contents_single_page_without_contents :
  env_list_objects_v2 env "demo" 100 (VStr "") empty_bucket =
    (Ok page_empty, listing [] quiet) /\
  page_truncated page_empty = Some false /\
  exists w',
    bucket_contents env 1 "demo" 100 (start empty_bucket) =
      Some (Raise (Exc "KeyError" "Contents"), w') /\
    w_calls w' = [CallListObjects "demo" 100 (VStr "")].
Proof.
  split; [reflexivity|]. split; [vm_compute; reflexivity|].
  eexists. split; vm_compute; reflexivity.
Qed.

(** The first page of bucket "demo" keeps the loop going. *)
Lemma continues_page_ab rest :
  continues env "demo" 2 (listing (Ok page_ab :: rest) quiet) (VStr "") [page_ab]
            (listing rest quiet) (VStr "t1").
Proof.
  eapply continues_page.
  - reflexivity.
  - eexists. vm_compute. reflexivity.
  - vm_compute. reflexivity.
  - vm_compute. reflexivity.
  - apply continues_done.
Defined.

(** Two pages, a b and then c: the result is a, b, c, after two requests. *)
Lemma bucket_contents_concatenates_pages_witness :
  bucket_contents env 2 "demo" 2 (start two_pages) =
    Some (Ok [obj "a"; obj "b"; obj "c"],
          after_calls [CallListObjects "demo" 2 (VStr "");
                       CallListObjects "demo" 2 (VStr "t1")]
                      (listing [] quiet) (start two_pages)) /\
  length [obj "a"; obj "b"; obj "c"] = 2 + (1 + 0).
Proof.
  apply (bucket_contents_concatenates_pages env "demo" 2 (start two_pages)
           [page_ab] (listing [Ok page_c] quiet) (VStr "t1") page_c (listing [] quiet)).
  - exact (continues_page_ab [Ok page_c]).
  - reflexivity.
  - eexists. vm_compute. reflexivity.
  - vm_compute. reflexivity.
  - simpl. lia.
Defined.

(** The loop ends when the second request fails, and when the second page is
    the last. *)
Lemma bucket_contents_terminates_witness :
  bucket_contents env 2 "demo" 2 (start second_fails) =
    Some (Raise outage,
          after_calls [CallListObjects "demo" 2 (VStr "");
                       CallListObjects "demo" 2 (VStr "t1")]
                      (listing [] quiet) (start second_fails)) /\
  exists r, bucket_contents env 2 "demo" 2 (start two_pages) =
    Some (r, after_calls [CallListObjects "demo" 2 (VStr "");
                          CallListObjects "demo" 2 (VStr "t1")]
                         (listing [] quiet) (start two_pages)).
Proof.
  split.
  - destruct (bucket_contents_terminates env "demo" 2 (start second_fails)
                [page_ab] (listing [Raise outage] quiet) (VStr "t1")
                (Raise outage) (listing [] quiet)
                (continues_page_ab [Raise outage]) eq_refl eq_refl)
      as (r & Hrun & Hraise).
    rewrite (Hrun 2) by (simpl; lia).
    rewrite (Hraise outage eq_refl). reflexivity.
  - destruct (bucket_contents_terminates env "demo" 2 (start two_pages)
                [page_ab] (listing [Ok page_c] quiet) (VStr "t1")
                (Ok page_c) (listing [] quiet)
                (continues_page_ab [Ok page_c]) eq_refl eq_refl)
      as (r & Hrun & _).
    exists r. rewrite (Hrun 2) by (simpl; lia). reflexivity.
Defined.

(** Keys a, b, c in one page: one request, and a, b, c returned. *)
Lemma bucket_contents_single_page_witness :
  exists w',
    bucket_contents env 1 "demo" 100 (start one_page) =
      Some (Ok [obj "a"; obj "b"; obj "c"], w') /\
    w_calls w' = [CallListObjects "demo" 100 (VStr "")].
Proof.
  destruct (bucket_contents_single_page env "demo" 100 (start one_page)
              page_abc (listing [] quiet) eq_refl eq_refl 1 (Nat.lt_0_succ 0))
    as (r & w' & Hrun & Hcalls & _ & Hres & _).
  exists w'. split; [|exact Hcalls].
  rewrite Hrun. rewrite (Hres [obj "a"; obj "b"; obj "c"] eq_refl). reflexivity.
Defined.

(** A page without entries after a page with two, and as the only page of an
    empty bucket. *)
Lemma bucket_contents_missing_contents_witness :
  bucket_contents env 2 "demo" 2 (start (listing [Ok page_ab; Ok page_empty] quiet)) =
    Some (Raise (Exc "KeyError" "Contents"),
          after_calls [CallListObjects "demo" 2 (VStr "");
                       CallListObjects "demo" 2 (VStr "t1")]
                      (listing [] quiet)
                      (start (listing [Ok page_ab; Ok page_empty] quiet))) /\
  bucket_contents env 1 "demo" 100 (start empty_bucket) =
    Some (Raise (Exc "KeyError" "Contents"),
          after_calls [CallListObjects "demo" 100 (VStr "")]
                      (listing [] quiet) (start empty_bucket)).
Proof.
  split.
  - apply (bucket_contents_missing_contents env "demo" 2
             (start (listing [Ok page_ab; Ok page_empty] quiet))
             [page_ab] (listing [Ok page_empty] quiet) (VStr "t1") page_empty
             (listing [] quiet) (continues_page_ab [Ok page_empty]) eq_refl eq_refl).
    simpl. lia.
  - apply (bucket_contents_missing_contents env "demo" 100 (start empty_bucket)
             [] empty_bucket (VStr "") page_empty (listing [] quiet)
             (continues_done env "demo" 100 empty_bucket (VStr "")) eq_refl eq_refl).
    simpl. lia.
Defined.

(** C2 fails as stated: the object does not exist, the client raises
    [ClientError], and that exception, not a [TransferError], leaves
    [__enter__]; the directory made at construction is still there. *)
Lemma COSReader_enter_failure_not_cleaned :
  exists r w1 w2,
    COSReader_init env cfg "b" "k" (start missing_key) = (Ok r, w1) /\
    COSReader_enter env r w1 = (Raise not_found, w2) /\
    exc_class not_found <> "TransferError" /\
    tmp r = "/tmp/tmphaaaaaaa/k" /\
    w_dirs w2 = {["/tmp/tmphaaaaaaa"]}.
Proof.
  do 3 eexists.
  split; [vm_compute; reflexivity|].
  split; [vm_compute; reflexivity|].
  split; [discriminate|].
  split; vm_compute; reflexivity.
Qed.

(** The failed download of key "k": the exception of the client, and a world
    changed only by the logged request. *)
Lemma COSReader_enter_download_fails_witness :
  exists w',
    COSReader_enter env reader_k (start missing_key) = (Raise not_found, w') /\
    (forall A (body : nat -> M script A),
        with_COSReader env reader_k body (start missing_key) = (Raise not_found, w')) /\
    w_calls w' = [CallDownload "b" "k" "/tmp/tmphaaaaaaa/k"] /\
    w_dirs w' = w_dirs (start missing_key) /\
    w_open w' = w_open (start missing_key).
Proof.
  destruct (COSReader_enter_download_fails env reader_k (start missing_key)
              not_found missing_key eq_refl)
    as (w' & Henter & Hwith & Hcalls & Hdirs & Hopen & _).
  exists w'. repeat split; assumption.
Defined.

(** C3 fails as stated: the close of the file object fails, [__exit__]
    raises that error, and the log ends with the close: [os.remove] was not
    called, the temp file is still on disk. *)
Lemma COSReader_exit_close_failure_skips_removal :
  exists r0 w0 self w1 w2,
    COSReader_init env cfg "b" "k" (start close_fails) = (Ok r0, w0) /\
    COSReader_enter env r0 w0 = (Ok (self, 0), w1) /\
    COSReader_exit env self None w1 = (Raise io_error, w2) /\
    w_calls w2 = [CallMkdir "/tmp/tmphaaaaaaa";
                  CallDownload "b" "k" "/tmp/tmphaaaaaaa/k";
                  CallOpen "/tmp/tmphaaaaaaa/k";
                  CallClose 0] /\
    w_files w2 = {["/tmp/tmphaaaaaaa/k"]}.
Proof.
  do 5 eexists.
  split; [vm_compute; reflexivity|].
  split; [vm_compute; reflexivity|].
  split; [vm_compute; reflexivity|].
  split; vm_compute; reflexivity.
Qed.

(** Leaving the scope with a close that fails, and with one that works. *)
Lemma COSReader_exit_close_then_remove_witness :
  (exists w',
      COSReader_exit env entered_k None (entered close_fails) = (Raise io_error, w') /\
      w_calls w' = [CallClose 0] /\
      w_files w' = w_files (entered close_fails)) /\
  (exists r w',
      COSReader_exit env entered_k None (entered healthy) = (r, w') /\
      w_calls w' = [CallClose 0; CallRemove "/tmp/tmphaaaaaaa/k"]).
Proof.
  split.
  - destruct (COSReader_exit_close_then_remove env entered_k 0 None
                (entered close_fails) eq_refl) as (r & w' & Hrun & Hcase).
    simpl in Hcase. destruct Hcase as (-> & Hcalls & Hfiles).
    exists w'. repeat split; assumption.
  - destruct (COSReader_exit_close_then_remove env entered_k 0 None
                (entered healthy) eq_refl) as (r & w' & Hrun & Hcase).
    simpl in Hcase. exists r, w'. split; assumption.
Defined.

(** C4 fails as stated: the scope is entered, the body ends normally, the
    close of the file object fails, and the temp file is on disk after the
    [with] statement. *)
Lemma with_COSReader_close_failure_leaves_file :
  exists r0 w0 w3,
    COSReader_init env cfg "b" "k" (start close_fails) = (Ok r0, w0) /\
    with_COSReader env r0 body_reads w0 = (Raise io_error, w3) /\
    tmp r0 = "/tmp/tmphaaaaaaa/k" /\
    w_files w3 = {["/tmp/tmphaaaaaaa/k"]}.
Proof.
  do 3 eexists.
  split; [vm_compute; reflexivity|].
  split; [vm_compute; reflexivity|].
  split; vm_compute; reflexivity.
Qed.

(** A body that raises, on a healthy system: its exception leaves the [with]
    statement, the file object is closed and the temp file is gone. *)
Lemma with_COSReader_releases_witness :
  exists w3,
    with_COSReader env reader_k body_raises (start healthy) =
      (Raise (Exc "ValueError" "bad line"), w3) /\
    (0 ∉ w_open w3) /\
    ("/tmp/tmphaaaaaaa/k" ∉ w_files w3).
Proof.
  pose (w1 := World healthy ∅ {["/tmp/tmphaaaaaaa/k"]} {[0]} 1
                [CallDownload "b" "k" "/tmp/tmphaaaaaaa/k";
                 CallOpen "/tmp/tmphaaaaaaa/k"]).
  assert (Henter : COSReader_enter env reader_k (start healthy) = (Ok (entered_k, 0), w1))
    by (vm_compute; reflexivity).
  destruct (with_COSReader_releases env reader_k body_raises (start healthy)
              entered_k 0 w1 (Raise (Exc "ValueError" "bad line")) w1 Henter eq_refl)
    as (xr & r & w3 & Hexit & Hwith & Hclosed & Hnofault & Hgone).
  vm_compute in Hexit. injection Hexit as <- <-.
  destruct (Hgone VNone eq_refl) as [_ ->].
  eexists. split; [exact Hwith|]. split; [exact Hclosed|].
  exact (Hnofault healthy healthy eq_refl eq_refl).
Defined.

(** C5 fails as stated: constructing a reader makes a directory, which the
    log and the file system show; two readers constructed for the key
    "/data/k", which is absolute, have the same temp path, the key itself;
    and the temp paths of two readers constructed for the key "../k" name
    one file, "/tmp/k". *)
Lemma COSReader_init_creates_directory :
  exists r w1 r2 w2 r3 w3 r4 w4 r5 w5,
    COSReader_init env cfg "b" "k" (start healthy) = (Ok r, w1) /\
    w_calls w1 = [CallMkdir "/tmp/tmphaaaaaaa"] /\
    w_dirs (start healthy) = ∅ /\
    w_dirs w1 = {["/tmp/tmphaaaaaaa"]} /\
    COSReader_init env cfg "b" "/data/k" (start healthy) = (Ok r2, w2) /\
    COSReader_init env cfg "b" "/data/k" w2 = (Ok r3, w3) /\
    tmp r2 = "/data/k" /\ tmp r3 = "/data/k" /\
    COSReader_init env cfg "b" "../k" (start healthy) = (Ok r4, w4) /\
    COSReader_init env cfg "b" "../k" w4 = (Ok r5, w5) /\
    normpath (tmp r4) = "/tmp/k" /\ normpath (tmp r5) = "/tmp/k".
Proof.
  do 10 eexists.
  split; [vm_compute; reflexivity|].
  split; [vm_compute; reflexivity|].
  split; [reflexivity|].
  split; [vm_compute; reflexivity|].
  split; [vm_compute; reflexivity|].
  split; [vm_compute; reflexivity|].
  split; [vm_compute; reflexivity|].
  split; [vm_compute; reflexivity|].
  split; [vm_compute; reflexivity|].
  split; [vm_compute; reflexivity|].
  split; vm_compute; reflexivity.
Qed.

(** Two readers constructed one after the other for the key "k" have
    different temp paths, which name different files. *)
Lemma COSReader_init_fresh_path_witness :
  exists r w1 r2 w2,
    COSReader_init env cfg "b" "k" (start healthy) = (Ok r, w1) /\
    COSReader_init env cfg "b" "k" w1 = (Ok r2, w2) /\
    (exists d, tmp r = d +:+ "/" +:+ "k" /\ (d ∉ w_dirs (start healthy)) /\
               w_dirs w1 = {[d]} ∪ w_dirs (start healthy)) /\
    tmp r2 <> tmp r /\ normpath (tmp r2) <> normpath (tmp r).
Proof.
  destruct (COSReader_init env cfg "b" "k" (start healthy)) as [[r|e] w1] eqn:Hfirst;
    [|vm_compute in Hfirst; discriminate Hfirst].
  destruct (COSReader_init env cfg "b" "k" w1) as [[r2|e2] w2] eqn:Hsecond.
  - destruct (COSReader_init_fresh_path env cfg "b" "k" (start healthy) r w1 Hfirst)
      as (d & Hnew & Hdirs & _ & _ & _ & Hinside).
    destruct (Hinside eq_refl) as (Htmp & _ & Huniq).
    exists r, w1, r2, w2.
    split; [reflexivity|]. split; [exact Hsecond|]. split.
    + exists d. split; [exact Htmp|]. split; [exact Hnew|exact Hdirs].
    + apply (Huniq cfg "b" "k" w1 r2 w2); [|reflexivity|exact Hsecond].
      rewrite Hdirs. apply elem_of_union. left. apply elem_of_singleton. reflexivity.
  - vm_compute in Hfirst. injection Hfirst as <- <-.
    vm_compute in Hsecond. discriminate Hsecond.
Defined.

(** ** Pagination against a store that pages *)

(** From any offset with objects left, the loop collects what is left,
    whatever the page size. *)
Lemma paged_loop objs max_keys name :
  (0 < max_keys)%Z ->
  forall fuel tok acc (w : world unit),
    0 < length (drop (Paged.offset_of tok) objs) <= fuel ->
    exists w',
      bucket_contents_loop (Paged.env objs) fuel name max_keys tok acc w =
        Some (Ok (acc ++ drop (Paged.offset_of tok) objs), w').
Proof.
  intros Hmk. induction fuel as [|fuel IH]; intros tok acc w [Hpos Hle]; [lia|].
  cbn [bucket_contents_loop]. rewrite bucket_contents_body_eq.
  cbn [env_list_objects_v2 Paged.env]. unfold Paged.page_at.
  set (rest := drop (Paged.offset_of tok) objs) in *.
  destruct (decide (Z.to_nat max_keys < length rest)) as [Hmore|Hlast].
  - rewrite lookup_insert_eq. cbn [iterate].
    rewrite lookup_insert_ne, lookup_insert_eq by discriminate. cbn [truthy].
    rewrite lookup_insert_ne, lookup_insert_ne, lookup_singleton_eq by discriminate.
    destruct (IH (VInt (Z.of_nat (Paged.offset_of tok + Z.to_nat max_keys)))
                 (acc ++ take (Z.to_nat max_keys) rest)
                 (answered (CallListObjects name max_keys tok) (w_ext w) w)) as [w' Hrun].
    + cbn [Paged.offset_of]. rewrite Nat2Z.id, <- drop_drop. fold rest.
      rewrite length_drop. lia.
    + exists w'. rewrite Hrun. cbn [Paged.offset_of].
      rewrite Nat2Z.id, <- drop_drop. fold rest.
      rewrite <- app_assoc, take_drop. reflexivity.
  - destruct rest as [|x rest'] eqn:Hrest; [simpl in Hpos; lia|].
    rewrite lookup_insert_eq. cbn [iterate].
    rewrite lookup_insert_ne, lookup_singleton_eq by discriminate. cbn [truthy].
    eexists. reflexivity.
Qed.

(** X5. Pagination is transparent: for a bucket with objects and any page size
    of at least one, [bucket_contents] returns the objects of the bucket, all
    of them and in the order of the store. *)
Lemma paged_bucket_contents objs max_keys name (w : world unit) :
  objs <> [] ->
  (0 < max_keys)%Z ->
  forall fuel, length objs <= fuel ->
    exists w', bucket_contents (Paged.env objs) fuel name max_keys w = Some (Ok objs, w').
Proof.
  intros Hne Hmk fuel Hfuel.
  destruct (paged_loop objs max_keys name Hmk fuel (VStr "") [] w) as [w' Hrun].
  - simpl. destruct objs; [congruence|simpl in *; lia].
  - exists w'. exact Hrun.
Qed.

(** Against a service that truncates every page the loop does not end:
    every bound on the number of passes is reached. *)
Lemma endless_bucket_contents name max_keys fuel :
  forall tok acc (w : world unit),
    bucket_contents_loop Paged.endless fuel name max_keys tok acc w = None.
Proof.
  induction fuel as [|fuel IH]; intros tok acc w; [reflexivity|].
  cbn [bucket_contents_loop]. rewrite bucket_contents_body_eq.
  cbn [env_list_objects_v2 Paged.endless].
  rewrite lookup_insert_eq. cbn [iterate].
  rewrite lookup_insert_ne, lookup_insert_eq by discriminate. cbn [truthy].
  rewrite lookup_insert_ne, lookup_insert_ne, lookup_singleton_eq by discriminate.
  apply IH.
Qed.

(** * Further properties of the code *)

Section Listing.

Context {B : Type} (env : environment B).

(** ** bucket_list *)

(** [bucket_list] sends one request whatever the answer; a failure of the
    service is not read tolerantly: it is raised as it is. *)
Theorem bucket_list_failure_propagates (w : world B) e b :
  env_list_buckets_extended env (w_ext w) = (Raise e, b) ->
  bucket_list env w = (Raise e, answered CallListBuckets b w).
Proof.
  intros Hcall. unfold bucket_list, bind, list_buckets_extended, remote. simpl.
  rewrite Hcall. reflexivity.
Qed.

(** ** bucket_contents *)

Lemma page_error_continues (p : response) xs tok' :
  page_entries p = Some xs -> page_truncated p = Some true -> page_token p = Some tok' ->
  page_error p = None.
Proof.
  unfold page_entries, page_truncated, page_token, page_error.
  destruct (p !! "Contents") as [batch|]; [|discriminate].
  intros ->. destruct (p !! "IsTruncated") as [t|]; [|discriminate].
  intros [= ->] ->. reflexivity.
Qed.

(** The body of the loop raises exactly the error of the answer. *)
Lemma bucket_contents_body_raises name max_keys tok files (w : world B) a b :
  env_list_objects_v2 env name max_keys tok (w_ext w) = (a, b) ->
  forall e,
    answer_error a = Some e <->
    bucket_contents_body env name max_keys tok files w =
      (Raise e, answered (CallListObjects name max_keys tok) b w).
Proof.
  intros Hcall e. rewrite bucket_contents_body_eq. simpl. rewrite Hcall.
  destruct a as [p|e0]; simpl; [|split; intros [= ->]; reflexivity].
  unfold page_error.
  destruct (p !! "Contents") as [batch|]; [|split; intros [= <-]; reflexivity].
  destruct (iterate batch) as [xs|]; [|split; intros [= <-]; reflexivity].
  destruct (p !! "IsTruncated") as [t|]; [|split; intros [= <-]; reflexivity].
  destruct (truthy t); [|split; discriminate].
  destruct (p !! "NextContinuationToken"); split; try discriminate;
    intros [= <-]; reflexivity.
Qed.

(** X1. Every way [bucket_contents] raises: after pages that kept the loop
    going, the service answered with a failure, which is raised as it is, or
    with a page the loop cannot read ([KeyError] for a missing field,
    [TypeError] for entries that cannot be iterated); and each such answer
    does make it raise. *)
Theorem bucket_contents_raises_iff name max_keys (w : world B) e :
  (exists fuel w', bucket_contents env fuel name max_keys w = Some (Raise e, w')) <->
  (exists ps b1 tok1 a b2,
      continues env name max_keys (w_ext w) (VStr "") ps b1 tok1 /\
      env_list_objects_v2 env name max_keys tok1 b1 = (a, b2) /\
      answer_error a = Some e).
Proof.
  split.
  - intros (fuel & w' & Hrun). unfold bucket_contents in Hrun.
    revert Hrun. generalize (VStr "") as tok, (@nil value) as acc. revert w.
    induction fuel as [|fuel IH]; intros w tok acc Hrun; [discriminate|].
    cbn [bucket_contents_loop] in Hrun.
    destruct (env_list_objects_v2 env name max_keys tok (w_ext w)) as [a b] eqn:Hcall.
    destruct (bucket_contents_body env name max_keys tok acc w)
      as [[[[files more] tok']|e0] w1] eqn:Hbody.
    + destruct more; [|discriminate].
      pose proof Hbody as Hbody'.
      rewrite bucket_contents_body_eq, Hcall in Hbody'. simpl in Hbody'.
      destruct a as [p|?]; [|discriminate].
      destruct (p !! "Contents") as [batch|] eqn:Hc; [|discriminate].
      destruct (iterate batch) as [xs|] eqn:Hit; [|discriminate].
      destruct (p !! "IsTruncated") as [t|] eqn:Ht; [|discriminate].
      destruct (truthy t) eqn:Htruthy; [|discriminate].
      destruct (p !! "NextContinuationToken") as [tok2|] eqn:Htok; [|discriminate].
      injection Hbody' as <- <- <-.
      apply IH in Hrun as (ps & b1 & tok1 & a & b2 & Hps & Ha & Herr).
      exists (p :: ps), b1, tok1, a, b2. split; [|split; assumption].
      eapply continues_page; eauto.
      * exists xs. unfold page_entries. rewrite Hc. exact Hit.
      * unfold page_truncated. rewrite Ht, Htruthy. reflexivity.
    + injection Hrun as <- <-.
      exists [], (w_ext w), tok, a, b. split; [constructor|]. split; [exact Hcall|].
      apply (bucket_contents_body_raises _ _ _ acc w _ _ Hcall).
      rewrite Hbody. f_equal.
      rewrite bucket_contents_body_eq, Hcall in Hbody. simpl in Hbody.
      destruct a as [p|?]; [|injection Hbody as _ <-; reflexivity].
      destruct (p !! "Contents"); [|injection Hbody as _ <-; reflexivity].
      destruct (iterate v); [|injection Hbody as _ <-; reflexivity].
      destruct (p !! "IsTruncated"); [|injection Hbody as _ <-; reflexivity].
      destruct (truthy v0); [|discriminate].
      destruct (p !! "NextContinuationToken"); [discriminate|].
      injection Hbody as _ <-; reflexivity.
  - intros (ps & b1 & tok1 & a & b2 & Hps & Hcall & Herr).
    exists (length ps + 1). eexists. unfold bucket_contents.
    rewrite (bucket_contents_loop_continues _ _ _ _ _ _ _ _ Hps) by reflexivity.
    cbn [bucket_contents_loop].
    assert (Hb : w_ext (after_calls (page_requests name max_keys (VStr "") ps) b1 w) = b1)
      by reflexivity.
    rewrite <- Hb in Hcall.
    rewrite (proj1 (bucket_contents_body_raises _ _ _ _ _ _ _ Hcall e) Herr).
    reflexivity.
Qed.

(** X2. The loop is still running after [fuel] passes exactly when the service
    delivered [fuel] pages in a row that are truncated and carry entries and
    a token: nothing in the loop bounds the number of requests. *)
Theorem bucket_contents_runs_on_iff name max_keys (w : world B) fuel :
  bucket_contents env fuel name max_keys w = None <->
  (exists ps b1 tok1,
      continues env name max_keys (w_ext w) (VStr "") ps b1 tok1 /\ length ps = fuel).
Proof.
  unfold bucket_contents. split.
  - generalize (VStr "") as tok, (@nil value) as acc. revert w.
    induction fuel as [|fuel IH]; intros w tok acc Hrun.
    + exists [], (w_ext w), tok. split; [constructor|reflexivity].
    + cbn [bucket_contents_loop] in Hrun.
      rewrite bucket_contents_body_eq in Hrun. simpl in Hrun.
      destruct (env_list_objects_v2 env name max_keys tok (w_ext w)) as [[p|?] b] eqn:Hcall;
        [|discriminate].
      destruct (p !! "Contents") as [batch|] eqn:Hc; [|discriminate].
      destruct (iterate batch) as [xs|] eqn:Hit; [|discriminate].
      destruct (p !! "IsTruncated") as [t|] eqn:Ht; [|discriminate].
      destruct (truthy t) eqn:Htruthy; [|discriminate].
      destruct (p !! "NextContinuationToken") as [tok2|] eqn:Htok; [|discriminate].
      apply IH in Hrun as (ps & b1 & tok1 & Hps & Hlen).
      exists (p :: ps), b1, tok1. split; [|simpl; rewrite Hlen; reflexivity].
      eapply continues_page; eauto.
      * exists xs. unfold page_entries. rewrite Hc. exact Hit.
      * unfold page_truncated. rewrite Ht, Htruthy. reflexivity.
  - intros (ps & b1 & tok1 & Hps & <-).
    rewrite <- (Nat.add_0_r (length ps)).
    rewrite (bucket_contents_loop_continues _ _ _ _ _ _ _ _ Hps) by reflexivity.
    reflexivity.
Qed.

(** What a run of the loop changes in the world. *)
Lemma bucket_contents_loop_frame name max_keys fuel :
  forall tok acc (w : world B) r w',
    bucket_contents_loop env fuel name max_keys tok acc w = Some (r, w') ->
    w_dirs w' = w_dirs w /\ w_files w' = w_files w /\
    w_open w' = w_open w /\ w_fresh w' = w_fresh w /\
    exists cs,
      w_calls w' = w_calls w ++ cs /\
      forallb (is_listing_call name max_keys) cs = true /\
      0 < length cs <= fuel.
Proof.
  assert (Hself : forall tok, is_listing_call name max_keys
                                (CallListObjects name max_keys tok) = true).
  { intros tok. simpl. rewrite String.eqb_refl, Z.eqb_refl. reflexivity. }
  assert (Hbody : forall tok acc (w : world B),
             exists r b, bucket_contents_body env name max_keys tok acc w =
                         (r, answered (CallListObjects name max_keys tok) b w)).
  { intros tok acc w. rewrite bucket_contents_body_eq. simpl.
    destruct (env_list_objects_v2 env name max_keys tok (w_ext w)) as [[p|?] b];
      [|eauto].
    destruct (p !! "Contents") as [batch|]; [|eauto].
    destruct (iterate batch); [|eauto].
    destruct (p !! "IsTruncated") as [t|]; [|eauto].
    destruct (truthy t); [|eauto].
    destruct (p !! "NextContinuationToken"); eauto. }
  induction fuel as [|fuel IH]; intros tok acc w r w' Hrun; [discriminate|].
  cbn [bucket_contents_loop] in Hrun.
  destruct (Hbody tok acc w) as (r1 & b & Hb). rewrite Hb in Hrun.
  destruct r1 as [[[files more] tok']|e].
  - destruct more.
    + apply IH in Hrun as (Hd & Hf & Ho & Hn & cs & Hcs & Hall & Hlen).
      simpl in Hd, Hf, Ho, Hn, Hcs.
      do 4 (split; [assumption|]).
      exists (CallListObjects name max_keys tok :: cs).
      split; [rewrite Hcs, <- app_assoc; reflexivity|].
      split; [cbn [forallb]; rewrite Hself, Hall; reflexivity|simpl; lia].
    + injection Hrun as <- <-. simpl. do 4 (split; [reflexivity|]).
      exists [CallListObjects name max_keys tok].
      split; [reflexivity|]. split; [cbn [forallb]; rewrite Hself; reflexivity|simpl; lia].
  - injection Hrun as <- <-. simpl. do 4 (split; [reflexivity|]).
    exists [CallListObjects name max_keys tok].
    split; [reflexivity|]. split; [cbn [forallb]; rewrite Hself; reflexivity|simpl; lia].
Qed.

(** X3. Whatever [bucket_contents] returns or raises, it has left the local
    file system alone, and the calls it made, at least one, are page
    requests for the bucket [name] with the page size [max_keys] it was
    given. *)
Theorem bucket_contents_frame name max_keys fuel (w : world B) r w' :
  bucket_contents env fuel name max_keys w = Some (r, w') ->
  w_dirs w' = w_dirs w /\ w_files w' = w_files w /\
  w_open w' = w_open w /\ w_fresh w' = w_fresh w /\
  exists cs,
    w_calls w' = w_calls w ++ cs /\
    forallb (is_listing_call name max_keys) cs = true /\
    0 < length cs <= fuel.
Proof. apply bucket_contents_loop_frame. Qed.

End Listing.

Section Endpoints.

Context {B : Type} (env : environment B).

(** ** url_from_location *)

Lemma getitem_lookup v k (w : world B) :
  getitem v k w =
  (match lookup_path v [k] with
   | Some x => Ok x
   | None =>
       Raise (match v with
              | VDict _ => Exc "KeyError" k
              | _ => Exc "TypeError" "subscript"
              end)
   end, w).
Proof.
  unfold getitem. destruct v; try reflexivity. simpl.
  destruct (assoc k kvs); reflexivity.
Qed.

Lemma lookup_path_cons v k ks x :
  lookup_path v (k :: ks) = Some x ->
  exists y, lookup_path v [k] = Some y /\ lookup_path y ks = Some x.
Proof.
  simpl. destruct v; try discriminate.
  destruct (assoc k kvs) as [y|]; [|discriminate].
  intros H. exists y. split; [reflexivity|exact H].
Qed.

(** X6. For a type the guard lets through, [url_from_location] sends one GET
    request to the URL under ["endpoints"] of the configuration and returns
    ["https://"] followed by the string the discovery document holds at
    [service-endpoints / regional / location / url_type / location]. *)
Theorem url_from_location_resolves (config : value) (location url_type : string)
    (w : world B) u jsn b host :
  url_type_known url_type = true ->
  lookup_path config ["endpoints"] = Some u ->
  env_http_get_json env u (w_ext w) = (Ok jsn, b) ->
  lookup_path jsn (endpoint_path location url_type) = Some (VStr host) ->
  url_from_location env config location url_type w =
    (Ok (VStr ("https://" +:+ host)), answered (CallHttpGet u) b w).
Proof.
  intros Hknown Hcfg Hget Hpath.
  unfold url_from_location. rewrite Hknown. cbn [negb].
  unfold bind. rewrite getitem_lookup, Hcfg.
  unfold requests_get_json, remote. cbn [w_ext logged]. rewrite Hget.
  unfold endpoint_path in Hpath.
  apply lookup_path_cons in Hpath as (v1 & H1 & Hpath).
  apply lookup_path_cons in Hpath as (v2 & H2 & Hpath).
  apply lookup_path_cons in Hpath as (v3 & H3 & Hpath).
  apply lookup_path_cons in Hpath as (v4 & H4 & Hpath).
  rewrite getitem_lookup, H1, getitem_lookup, H2, getitem_lookup, H3,
    getitem_lookup, H4, getitem_lookup, Hpath.
  reflexivity.
Qed.

(** X7. A configuration dict without ["endpoints"] makes [url_from_location]
    raise [KeyError] before any request is sent, for every type the guard
    lets through. *)
Theorem url_from_location_missing_endpoints (kvs : list (string * value))
    (location url_type : string) (w : world B) :
  url_type_known url_type = true ->
  assoc "endpoints" kvs = None ->
  url_from_location env (VDict kvs) location url_type w =
    (Raise (Exc "KeyError" "endpoints"), w).
Proof.
  intros Hknown Hcfg. unfold url_from_location. rewrite Hknown. cbn [negb].
  unfold bind. rewrite getitem_lookup. simpl. rewrite Hcfg. reflexivity.
Qed.

(** X8. The guard compares the lower-case form of [url_type], the lookup uses
    [url_type] as given: when the entry of the location in the discovery
    document has no key spelled exactly like [url_type], the request has been
    sent and [KeyError] is raised. *)
Theorem url_from_location_lookup_is_case_sensitive (config : value)
    (location url_type : string) (w : world B) u jsn b kvs :
  url_type_known url_type = true ->
  lookup_path config ["endpoints"] = Some u ->
  env_http_get_json env u (w_ext w) = (Ok jsn, b) ->
  lookup_path jsn ["service-endpoints"; "regional"; location] = Some (VDict kvs) ->
  assoc url_type kvs = None ->
  url_from_location env config location url_type w =
    (Raise (Exc "KeyError" url_type), answered (CallHttpGet u) b w).
Proof.
  intros Hknown Hcfg Hget Hpath Hmiss.
  unfold url_from_location. rewrite Hknown. cbn [negb].
  unfold bind. rewrite getitem_lookup, Hcfg.
  unfold requests_get_json, remote. cbn [w_ext logged]. rewrite Hget.
  apply lookup_path_cons in Hpath as (v1 & H1 & Hpath).
  apply lookup_path_cons in Hpath as (v2 & H2 & Hpath).
  rewrite getitem_lookup, H1, getitem_lookup, H2, getitem_lookup, Hpath.
  rewrite getitem_lookup. simpl. rewrite Hmiss. reflexivity.
Qed.

(** X9. Whatever the configuration and the discovery document, a value returned
    by [url_from_location] is [None], and then the guard refused the type and
    nothing was sent, or a string that starts with ["https://"]; at most one
    request is sent, and the local file system is left alone. *)
Theorem url_from_location_result (config : value) (location url_type : string)
    (w : world B) r w' :
  url_from_location env config location url_type w = (r, w') ->
  (w' = w \/ exists u b, w' = answered (CallHttpGet u) b w) /\
  (forall v, r = Ok v ->
     (v = VNone /\ url_type_known url_type = false /\ w' = w) \/
     (exists host, v = VStr ("https://" +:+ host) /\ url_type_known url_type = true)).
Proof.
  unfold url_from_location.
  destruct (url_type_known url_type); cbn [negb].
  2: { intros [= <- <-]. split; [left; reflexivity|].
       intros v [= <-]. left. repeat split. }
  unfold bind. rewrite getitem_lookup.
  destruct (lookup_path config ["endpoints"]) as [u|].
  2: { intros [= <- <-]. split; [left; reflexivity|discriminate]. }
  unfold requests_get_json, remote. cbn [w_ext logged].
  destruct (env_http_get_json env u (w_ext w)) as [[jsn|e] b].
  2: { intros [= <- <-]. split; [right; eauto|discriminate]. }
  fold (answered (CallHttpGet u) b w).
  repeat (rewrite getitem_lookup;
          match goal with
          | |- context [lookup_path ?x [?k]] =>
              destruct (lookup_path x [k]) as [?|];
              [|intros [= <- <-]; split; [right; eauto|discriminate]]
          end).
  unfold str_add.
  match goal with
  | |- context [match ?x with VStr _ => _ | _ => _ end] => destruct x
  end; intros [= <- <-]; (split; [right; eauto|]); try discriminate.
  intros res [= <-]. right. eauto.
Qed.

End Endpoints.

Section Readers.

Context {B : Type} (env : environment B).

(** ** COS.__init__ *)

(** X10. [COS.__init__] succeeds only when the configuration holds both HMAC
    keys and an endpoint is passed or configured.  The client is then built
    from these three values, the endpoint being the one passed when one
    other than [None] is passed (the configured one is not asked for) and
    the configured one otherwise; the configuration is kept as given, and
    nothing in the world has changed. *)
Theorem COS_init_ok_inv (config : value) (endpoint : option value) (w : world B) c w' :
  COS_init config endpoint w = (Ok c, w') ->
  w' = w /\
  exists k s e,
    lookup_path config ["cos_hmac_keys"; "access_key_id"] = Some k /\
    lookup_path config ["cos_hmac_keys"; "secret_access_key"] = Some s /\
    match endpoint with
    | None | Some VNone => lookup_path config ["endpoint"] = Some e
    | Some given => given = e
    end /\
    c = MkCOS config (Client k s e).
Proof.
  unfold COS_init, bind. rewrite !getitem_lookup.
  destruct config as [| | | | |kvs]; simpl; try discriminate.
  destruct (assoc "cos_hmac_keys" kvs) as [keys|]; simpl; [|discriminate].
  rewrite !getitem_lookup.
  destruct keys as [| | | | |ks]; simpl; try discriminate.
  destruct (assoc "access_key_id" ks) as [k0|]; simpl; [|discriminate].
  destruct (assoc "secret_access_key" ks) as [s0|]; simpl; [|discriminate].
  assert (Hconfigured : forall c0 w0',
    (let (o, w0) := getitem (VDict kvs) "endpoint" w in
     match o with
     | Ok a => ret (MkCOS (VDict kvs) (ibm_boto3_client k0 s0 a)) w0
     | Raise e => (Raise e, w0)
     end) = (Ok c0, w0') ->
    w0' = w /\
    exists e, assoc "endpoint" kvs = Some e /\
              c0 = MkCOS (VDict kvs) (Client k0 s0 e)).
  { intros c0 w0'. rewrite getitem_lookup. simpl.
    destruct (assoc "endpoint" kvs) as [e0|]; simpl; [|discriminate].
    intros [= <- <-]. split; [reflexivity|]. exists e0. split; reflexivity. }
  destruct endpoint as [given|].
  - destruct given;
      try (intros [= <- <-]; split; [reflexivity|];
           eexists k0, s0, _; repeat split).
    intros Hrun. apply Hconfigured in Hrun as (-> & e0 & He & ->).
    split; [reflexivity|]. exists k0, s0, e0. repeat split. rewrite He. reflexivity.
  - intros Hrun. apply Hconfigured in Hrun as (-> & e0 & He & ->).
    split; [reflexivity|]. exists k0, s0, e0. repeat split. rewrite He. reflexivity.
Qed.

(** X11. With both HMAC keys in place, no endpoint passed and none configured,
    [COS.__init__] raises [KeyError] for ["endpoint"]. *)
Theorem COS_init_missing_endpoint (kvs : list (string * value)) (w : world B) k s :
  lookup_path (VDict kvs) ["cos_hmac_keys"; "access_key_id"] = Some k ->
  lookup_path (VDict kvs) ["cos_hmac_keys"; "secret_access_key"] = Some s ->
  assoc "endpoint" kvs = None ->
  COS_init (VDict kvs) None w = (Raise (Exc "KeyError" "endpoint"), w).
Proof.
  intros Hk Hs Hmiss.
  apply lookup_path_cons in Hk as (keys & Hkeys & Hk).
  apply lookup_path_cons in Hs as (keys' & Hkeys' & Hs).
  unfold COS_init, bind.
  rewrite getitem_lookup, Hkeys, getitem_lookup, Hk.
  rewrite getitem_lookup, Hkeys', getitem_lookup, Hs.
  rewrite getitem_lookup. simpl. rewrite Hmiss. reflexivity.
Qed.

(** ** COSReader.__init__ *)

(** X12. The directory is made before the configuration is read: when
    [COS.__init__] raises on the configuration, the constructor raises the
    same exception, no reader exists, and the directory [mkdtemp] made is
    left behind. *)
Theorem COSReader_init_bad_config_leaves_directory cfg b k (w : world B) e d w1 :
  (forall w0 : world B, COS_init cfg None w0 = (Raise e, w0)) ->
  mkdtemp env w = (Ok d, w1) ->
  COSReader_init env cfg b k w = (Raise e, w1) /\
  (d ∉ w_dirs w) /\ w_dirs w1 = {[d]} ∪ w_dirs w.
Proof.
  intros Hbad Hmk. unfold COSReader_init, bind. rewrite Hmk, Hbad.
  split; [reflexivity|].
  apply mkdtemp_from_effect in Hmk as (_ & Hnew & Hd & _).
  split; assumption.
Qed.

(** X13. For a key that starts with ["/"], the temp path is the key itself: the
    directory made for the reader is not part of it. *)
Theorem COSReader_init_absolute_key cfg b k (w : world B) r w' :
  startswith_sep k = true ->
  COSReader_init env cfg b k w = (Ok r, w') ->
  tmp r = k /\ bucket r = b /\ key r = k /\ open_file r = None.
Proof.
  intros Habs Hrun. unfold COSReader_init, bind in Hrun.
  destruct (mkdtemp env w) as [[d|e] w1]; [|discriminate].
  destruct (COS_init cfg None w1) as [[c|e] w2]; [|discriminate].
  injection Hrun as <- _. simpl. unfold os_path_join. rewrite Habs. repeat split.
Qed.

(** ** COSReader.__enter__ and __exit__ *)

(** [__enter__], case by case on the answers of the download and of the
    operating system. *)
Lemma COSReader_enter_eq (self : COSReader) (w : world B) :
  COSReader_enter env self w =
  let c1 := CallDownload (bucket self) (key self) (tmp self) in
  let c2 := CallOpen (tmp self) in
  match env_download_file env (bucket self) (key self) (tmp self) (w_ext w) with
  | (Raise e, b1) =>
      (Raise e,
       if env_partial_download env (bucket self) (key self) (tmp self) (w_ext w)
       then add_file (tmp self) (answered c1 b1 w) else answered c1 b1 w)
  | (Ok _, b1) =>
      match env_io_fault env c2 b1 with
      | (Some e, b2) =>
          (Raise e,
           World b2 (w_dirs w) ({[tmp self]} ∪ w_files w) (w_open w) (w_fresh w)
                 (w_calls w ++ [c1; c2]))
      | (None, b2) =>
          (Ok (MkCOSReader (bucket self) (key self) (Some (w_fresh w)) (tmp self)
                           (base self), w_fresh w),
           World b2 (w_dirs w) ({[tmp self]} ∪ w_files w) ({[w_fresh w]} ∪ w_open w)
                 (S (w_fresh w)) (w_calls w ++ [c1; c2]))
      end
  end.
Proof.
  unfold COSReader_enter, bind, download_file, remote, answered. simpl.
  destruct (env_download_file env (bucket self) (key self) (tmp self) (w_ext w))
    as [[[]|e] b1]; [|reflexivity].
  unfold open, syscall. simpl.
  destruct (env_io_fault env (CallOpen (tmp self)) b1) as [[e|] b2]; simpl.
  - unfold set_ext, logged, add_file. simpl. rewrite <- app_assoc. reflexivity.
  - rewrite decide_True by (apply elem_of_union; left; apply elem_of_singleton; reflexivity).
    unfold set_ext, logged, add_file. simpl. rewrite <- app_assoc. reflexivity.
Qed.

(** X14. When the download succeeds and the system lets the file be opened,
    [__enter__] returns a new open file object, keeps it in [open_file], and
    has put the object at the temp path; it has made the two calls,
    download and open. *)
Theorem COSReader_enter_opens (self : COSReader) (w : world B) b1 b2 :
  env_download_file env (bucket self) (key self) (tmp self) (w_ext w) = (Ok tt, b1) ->
  env_io_fault env (CallOpen (tmp self)) b1 = (None, b2) ->
  exists self' f w',
    COSReader_enter env self w = (Ok (self', f), w') /\
    f = w_fresh w /\ open_file self' = Some f /\
    tmp self' = tmp self /\ bucket self' = bucket self /\ key self' = key self /\
    w_open w' = {[f]} ∪ w_open w /\
    w_files w' = {[tmp self]} ∪ w_files w /\
    w_calls w' = w_calls w ++ [CallDownload (bucket self) (key self) (tmp self);
                               CallOpen (tmp self)].
Proof.
  intros Hdl Hopen. rewrite COSReader_enter_eq. simpl. rewrite Hdl, Hopen.
  do 3 eexists. split; [reflexivity|]. repeat split.
Qed.

(** X15. When the download succeeds and the open fails, [__enter__] raises the
    error of the open and removes nothing: the downloaded file stays at the
    temp path, and no file object is open. *)
Theorem COSReader_enter_open_fails_leaves_file (self : COSReader) (w : world B) b1 e b2 :
  env_download_file env (bucket self) (key self) (tmp self) (w_ext w) = (Ok tt, b1) ->
  env_io_fault env (CallOpen (tmp self)) b1 = (Some e, b2) ->
  exists w',
    COSReader_enter env self w = (Raise e, w') /\
    (tmp self ∈ w_files w') /\ w_open w' = w_open w /\
    w_calls w' = w_calls w ++ [CallDownload (bucket self) (key self) (tmp self);
                               CallOpen (tmp self)].
Proof.
  intros Hdl Hopen. rewrite COSReader_enter_eq. simpl. rewrite Hdl, Hopen.
  eexists. split; [reflexivity|]. simpl. repeat split.
  apply elem_of_union. left. apply elem_of_singleton. reflexivity.
Qed.

(** [__exit__] on a reader that was never entered raises [AttributeError]
    (its [open_file] is [None]) and does nothing else: nothing is closed or
    removed. *)
Theorem COSReader_exit_before_enter (self : COSReader) exc (w : world B) :
  open_file self = None ->
  COSReader_exit env self exc w = (Raise (Exc "AttributeError" "close"), w).
Proof. intros Hnone. unfold COSReader_exit. rewrite Hnone. reflexivity. Qed.

Lemma put_then_take `{Countable K} (x : K) (s : gset K) :
  ({[x]} ∪ s) ∖ {[x]} = s ∖ {[x]}.
Proof.
  apply set_eq. intros y.
  rewrite !elem_of_difference, elem_of_union, elem_of_singleton. tauto.
Qed.

(** X16. Entering and leaving on a system that fails nothing: the object is
    downloaded, opened, closed and removed, in that order; afterwards the
    file object is closed and no file is at the temp path, also when one
    was there before the reader was entered. *)
Theorem COSReader_enter_exit_round_trip (self : COSReader) exc (w : world B)
    b1 b2 b3 b4 :
  env_download_file env (bucket self) (key self) (tmp self) (w_ext w) = (Ok tt, b1) ->
  env_io_fault env (CallOpen (tmp self)) b1 = (None, b2) ->
  env_io_fault env (CallClose (w_fresh w)) b2 = (None, b3) ->
  env_io_fault env (CallRemove (tmp self)) b3 = (None, b4) ->
  exists self' f w1 w2,
    COSReader_enter env self w = (Ok (self', f), w1) /\
    COSReader_exit env self' exc w1 = (Ok VNone, w2) /\
    w_files w2 = w_files w ∖ {[tmp self]} /\
    w_open w2 = w_open w ∖ {[f]} /\
    w_dirs w2 = w_dirs w /\
    w_calls w2 = w_calls w ++ [CallDownload (bucket self) (key self) (tmp self);
                               CallOpen (tmp self);
                               CallClose f;
                               CallRemove (tmp self)].
Proof.
  intros Hdl Hopen Hclose Hrm.
  rewrite COSReader_enter_eq. simpl. rewrite Hdl, Hopen.
  do 4 eexists. split; [reflexivity|].
  unfold COSReader_exit, bind. simpl. rewrite close_eq. simpl.
  rewrite decide_True by (apply elem_of_union; left; apply elem_of_singleton; reflexivity).
  rewrite Hclose. unfold os_remove, syscall. simpl. rewrite Hrm. simpl.
  rewrite decide_True by (apply elem_of_union; left; apply elem_of_singleton; reflexivity).
  split; [reflexivity|]. simpl.
  split; [apply put_then_take|]. split; [apply put_then_take|]. split; [reflexivity|].
  rewrite <- !app_assoc. reflexivity.
Qed.

Lemma COSReader_enter_dirs (self : COSReader) (w : world B) r w' :
  COSReader_enter env self w = (r, w') -> w_dirs w' = w_dirs w.
Proof.
  rewrite COSReader_enter_eq. simpl.
  destruct (env_download_file env _ _ _ _) as [[[]|e] b1].
  - destruct (env_io_fault env _ b1) as [[?|] b2]; intros [= <- <-]; reflexivity.
  - destruct (env_partial_download env _ _ _ _); intros [= <- <-]; reflexivity.
Qed.

Lemma COSReader_exit_dirs (self : COSReader) exc (w : world B) r w' :
  COSReader_exit env self exc w = (r, w') -> w_dirs w' = w_dirs w.
Proof.
  unfold COSReader_exit, bind.
  destruct (open_file self) as [f|]; [|intros [= <- <-]; reflexivity].
  rewrite close_eq.
  assert (Hrm : forall (w0 : world B) r0 w0',
             os_remove env (tmp self) w0 = (r0, w0') -> w_dirs w0' = w_dirs w0).
  { intros w0 r0 w0'. unfold os_remove, syscall. simpl.
    destruct (env_io_fault env _ _) as [[e|] b]; [intros [= <- <-]; reflexivity|].
    simpl. destruct (decide (tmp self ∈ w_files w0)); [intros [= <- <-]; reflexivity|].
    destruct (decide (tmp self ∈ w_dirs w0)); intros [= <- <-]; reflexivity. }
  destruct (decide (f ∈ w_open w)) as [Hin|Hout].
  - simpl. destruct (env_io_fault env (CallClose f) (w_ext w)) as [[e|] b].
    + intros [= <- <-]. reflexivity.
    + destruct (os_remove env (tmp self) _) as [[[]|e] w1] eqn:Hr;
        apply Hrm in Hr; intros [= <- <-]; exact Hr.
  - destruct (os_remove env (tmp self) w) as [[[]|e] w1] eqn:Hr;
      apply Hrm in Hr; intros [= <- <-]; exact Hr.
Qed.

(** X17. The scope never removes a directory: whatever the outcome of a [with]
    statement whose body removes none, every directory that existed before,
    the one made for the reader among them, exists afterwards. *)
Theorem with_COSReader_keeps_directories {A} (reader : COSReader)
    (body : nat -> M B A) (w : world B) r w' :
  (forall f w1 res w2, body f w1 = (res, w2) -> w_dirs w1 ⊆ w_dirs w2) ->
  with_COSReader env reader body w = (r, w') ->
  w_dirs w ⊆ w_dirs w'.
Proof.
  intros Hbody. unfold with_COSReader.
  destruct (COSReader_enter env reader w) as [[[self f]|e] w1] eqn:Henter;
    apply COSReader_enter_dirs in Henter.
  2: { intros [= <- <-]. rewrite Henter. reflexivity. }
  destruct (body f w1) as [res w2] eqn:Hb. apply Hbody in Hb. rewrite Henter in Hb.
  destruct res as [a|e].
  - destruct (COSReader_exit env self None w2) as [[v|e'] w3] eqn:Hexit;
      apply COSReader_exit_dirs in Hexit; intros [= <- <-]; rewrite Hexit; exact Hb.
  - destruct (COSReader_exit env self (Some e) w2) as [[v|e'] w3] eqn:Hexit;
      apply COSReader_exit_dirs in Hexit.
    + destruct (truthy v); intros [= <- <-]; rewrite Hexit; exact Hb.
    + intros [= <- <-]. rewrite Hexit. exact Hb.
Qed.

Lemma COSReader_exit_returns_none (self : COSReader) exc (w : world B) v w' :
  COSReader_exit env self exc w = (Ok v, w') -> v = VNone.
Proof.
  unfold COSReader_exit, bind.
  destruct (open_file self) as [f|]; [|discriminate].
  destruct (close env f w) as [[[]|e] w1]; [|discriminate].
  destruct (os_remove env (tmp self) w1) as [[[]|e] w2]; [|discriminate].
  intros [= <- _]. reflexivity.
Qed.

(** X18. [__exit__] never suppresses an exception: a [with] statement on a reader
    ends normally only when [__enter__], the body and [__exit__] all did, and
    its value is then the value of the body. *)
Theorem with_COSReader_ok_inv {A} (reader : COSReader) (body : nat -> M B A)
    (w : world B) x w3 :
  with_COSReader env reader body w = (Ok x, w3) ->
  exists self f w1 a w2,
    COSReader_enter env reader w = (Ok (self, f), w1) /\
    body f w1 = (Ok a, w2) /\
    COSReader_exit env self None w2 = (Ok VNone, w3) /\
    x = Some a.
Proof.
  unfold with_COSReader.
  destruct (COSReader_enter env reader w) as [[[self f]|e] w1] eqn:Henter; [|discriminate].
  destruct (body f w1) as [[a|e] w2] eqn:Hb.
  - destruct (COSReader_exit env self None w2) as [[v|e'] w3'] eqn:Hexit; [|discriminate].
    intros [= <- <-].
    rewrite (COSReader_exit_returns_none _ _ _ _ _ Hexit) in Hexit.
    exists self, f, w1, a, w2.
    split; [reflexivity|]. split; [exact Hb|]. split; [exact Hexit|reflexivity].
  - destruct (COSReader_exit env self (Some e) w2) as [[v|e'] w3'] eqn:Hexit; [|discriminate].
    rewrite (COSReader_exit_returns_none _ _ _ _ _ Hexit). simpl. discriminate.
Qed.

End Readers.

Section ListingReturns.

Context {B : Type} (env : environment B).

Lemma continues_take name max_keys b tok ps b' tok' :
  continues env name max_keys b tok ps b' tok' ->
  forall n, n <= length ps ->
    exists b1 tok1, continues env name max_keys b tok (take n ps) b1 tok1.
Proof.
  induction 1 as [b tok|b tok p b1 tok1 ps b2 tok2 Hcall Hxs Htr Htok _ IH];
    intros n Hn.
  - destruct n; [|simpl in Hn; lia]. exists b, tok. constructor.
  - destruct n as [|n]; [exists b, tok; constructor|].
    destruct (IH n) as (b3 & tok3 & Hrest); [simpl in Hn; lia|].
    exists b3, tok3. simpl. eapply continues_page; eassumption.
Qed.

(** X4. Every list [bucket_contents] returns is the concatenation, in order, of
    the entries of the pages the service delivered, the last of them not
    truncated: nothing is added, dropped or reordered. *)
Theorem bucket_contents_returns_inv name max_keys fuel (w : world B) files w' :
  bucket_contents env fuel name max_keys w = Some (Ok files, w') ->
  exists ps b1 tok1 last,
    continues env name max_keys (w_ext w) (VStr "") ps b1 tok1 /\
    env_list_objects_v2 env name max_keys tok1 b1 = (Ok last, w_ext w') /\
    page_truncated last = Some false /\
    files = concat (entries <$> (ps ++ [last])) /\
    length ps < fuel.
Proof.
  intros Hrun.
  destruct (bucket_contents_loop_returns env fuel _ _ _ _ _ _ _ Hrun)
    as (ps & b1 & tok1 & last & Hps & Hlast & _ & Htr & Hfiles).
  exists ps, b1, tok1, last. do 4 (split; [assumption|]).
  destruct (Nat.lt_ge_cases (length ps) fuel) as [Hlt|Hge]; [exact Hlt|].
  exfalso.
  destruct (continues_take _ _ _ _ _ _ _ Hps fuel Hge) as (b3 & tok3 & Hprefix).
  assert (Hnone : bucket_contents env fuel name max_keys w = None).
  { unfold bucket_contents.
    replace fuel with (length (take fuel ps) + 0) at 1 by (rewrite length_take; lia).
    rewrite (bucket_contents_loop_continues _ _ _ _ _ _ _ _ Hprefix) by reflexivity.
    reflexivity. }
  rewrite Hnone in Hrun. discriminate.
Qed.

End ListingReturns.

(** * The further properties on concrete runs *)

Import Cases.

(** A refused listing of the buckets is raised as it is. *)
Lemma bucket_list_failure_propagates_witness :
  bucket_list env (start quiet) =
    (Raise (Exc "ClientError" "AccessDenied"), answered CallListBuckets quiet (start quiet)).
Proof.
  exact (bucket_list_failure_propagates env (start quiet) _ quiet eq_refl).
Defined.

(** The failure of the second request is among the ways to raise. *)
Lemma bucket_contents_raises_iff_witness :
  exists fuel w',
    bucket_contents env fuel "demo" 2 (start second_fails) = Some (Raise outage, w').
Proof.
  apply (proj2 (bucket_contents_raises_iff env "demo" 2 (start second_fails) outage)).
  exists [page_ab], (listing [Raise outage] quiet), (VStr "t1"), (Raise outage),
    (listing [] quiet).
  split; [exact (continues_page_ab [Raise outage])|]. split; reflexivity.
Defined.

(** After one pass over bucket "demo" in two pages the loop is still
    running. *)
Lemma bucket_contents_runs_on_iff_witness :
  bucket_contents env 1 "demo" 2 (start two_pages) = None.
Proof.
  apply (proj2 (bucket_contents_runs_on_iff env "demo" 2 (start two_pages) 1)).
  exists [page_ab], (listing [Ok page_c] quiet), (VStr "t1").
  split; [exact (continues_page_ab [Ok page_c])|reflexivity].
Defined.

(** The listing of "demo" in two pages: two page requests, and a file
    system as before. *)
Lemma bucket_contents_frame_witness :
  exists r w' cs,
    bucket_contents env 2 "demo" 2 (start two_pages) = Some (r, w') /\
    w_files w' = w_files (start two_pages) /\
    w_calls w' = w_calls (start two_pages) ++ cs /\
    forallb (is_listing_call "demo" 2) cs = true.
Proof.
  destruct (bucket_contents env 2 "demo" 2 (start two_pages)) as [[r w']|] eqn:Hrun;
    [|vm_compute in Hrun; discriminate Hrun].
  destruct (bucket_contents_frame env "demo" 2 2 (start two_pages) r w' Hrun)
    as (_ & Hfiles & _ & _ & cs & Hcalls & Hall & _).
  exists r, w', cs. split; [reflexivity|]. split; [exact Hfiles|]. split; assumption.
Defined.

(** What the listing of "demo" in two pages returned came in two pages. *)
Lemma bucket_contents_returns_inv_witness :
  exists ps last,
    [obj "a"; obj "b"; obj "c"] = concat (entries <$> (ps ++ [last])) /\
    page_truncated last = Some false /\ length ps < 2.
Proof.
  destruct (bucket_contents_returns_inv env "demo" 2 2 (start two_pages)
              [obj "a"; obj "b"; obj "c"]
              (after_calls [CallListObjects "demo" 2 (VStr "");
                            CallListObjects "demo" 2 (VStr "t1")]
                           (listing [] quiet) (start two_pages)))
    as (ps & b1 & tok1 & last & _ & _ & Htr & Hfiles & Hlen).
  - vm_compute. reflexivity.
  - exists ps, last. split; [exact Hfiles|]. split; assumption.
Defined.

(** Three objects listed two at a time. *)
Lemma paged_bucket_contents_witness :
  exists w',
    bucket_contents (Paged.env [obj "a"; obj "b"; obj "c"]) 3 "demo" 2
                    (World tt ∅ ∅ ∅ 0 []) =
      Some (Ok [obj "a"; obj "b"; obj "c"], w').
Proof.
  apply (paged_bucket_contents [obj "a"; obj "b"; obj "c"] 2 "demo"
           (World tt ∅ ∅ ∅ 0 [])).
  - discriminate.
  - reflexivity.
  - simpl. lia.
Defined.

(** The public endpoint of us-south. *)
Lemma url_from_location_resolves_witness :
  url_from_location env cfg "us-south" "public" (start discovery) =
    (Ok (VStr "https://s3.us-south.example"),
     answered (CallHttpGet (VStr "https://control.example/endpoints")) discovery
              (start discovery)).
Proof.
  exact (url_from_location_resolves env cfg "us-south" "public" (start discovery)
           (VStr "https://control.example/endpoints") discovery_document discovery
           "s3.us-south.example" eq_refl eq_refl eq_refl eq_refl).
Defined.

(** A configuration with the keys only. *)
Lemma url_from_location_missing_endpoints_witness :
  url_from_location env (VDict keys_only) "us-south" "public" (start discovery) =
    (Raise (Exc "KeyError" "endpoints"), start discovery).
Proof.
  exact (url_from_location_missing_endpoints env keys_only "us-south" "public"
           (start discovery) eq_refl eq_refl).
Defined.

(** The type "Public" passes the guard and is not a key of the document. *)
Lemma url_from_location_lookup_is_case_sensitive_witness :
  url_from_location env cfg "us-south" "Public" (start discovery) =
    (Raise (Exc "KeyError" "Public"),
     answered (CallHttpGet (VStr "https://control.example/endpoints")) discovery
              (start discovery)).
Proof.
  exact (url_from_location_lookup_is_case_sensitive env cfg "us-south" "Public"
           (start discovery) (VStr "https://control.example/endpoints")
           discovery_document discovery
           [("public", VDict [("us-south", VStr "s3.us-south.example")])]
           eq_refl eq_refl eq_refl eq_refl eq_refl).
Defined.

(** The value returned for the public endpoint of us-south starts with
    "https://". *)
Lemma url_from_location_result_witness :
  exists host, VStr "https://s3.us-south.example" = VStr ("https://" +:+ host).
Proof.
  destruct (url_from_location_result env cfg "us-south" "public" (start discovery)
              (Ok (VStr "https://s3.us-south.example"))
              (answered (CallHttpGet (VStr "https://control.example/endpoints"))
                        discovery (start discovery)) eq_refl)
    as [_ Hshape].
  destruct (Hshape _ eq_refl) as [(Hnone & _)|(host & Hhost & _)];
    [discriminate Hnone|].
  exists host. exact Hhost.
Defined.

(** An endpoint passed to the constructor stands in for the missing
    configured one. *)
Lemma COS_init_ok_inv_witness :
  exists k s,
    lookup_path (VDict keys_only) ["cos_hmac_keys"; "access_key_id"] = Some k /\
    lookup_path (VDict keys_only) ["cos_hmac_keys"; "secret_access_key"] = Some s /\
    MkCOS (VDict keys_only)
          (Client (VStr "id") (VStr "secret") (VStr "https://other.example")) =
    MkCOS (VDict keys_only) (Client k s (VStr "https://other.example")).
Proof.
  destruct (COS_init_ok_inv (VDict keys_only) (Some (VStr "https://other.example"))
              (start quiet) _ (start quiet) eq_refl)
    as (_ & k & s & e & Hk & Hs & <- & Hc).
  exists k, s. split; [exact Hk|]. split; [exact Hs|exact Hc].
Defined.

(** The keys alone do not make a client. *)
Lemma COS_init_missing_endpoint_witness :
  COS_init (VDict keys_only) None (start quiet) =
    (Raise (Exc "KeyError" "endpoint"), start quiet).
Proof.
  exact (COS_init_missing_endpoint keys_only (start quiet) (VStr "id") (VStr "secret")
           eq_refl eq_refl eq_refl).
Defined.

(** A reader for an empty configuration: no reader, one directory more. *)
Lemma COSReader_init_bad_config_leaves_directory_witness :
  exists w1,
    COSReader_init env (VDict []) "b" "k" (start healthy) =
      (Raise (Exc "KeyError" "cos_hmac_keys"), w1) /\
    ("/tmp/tmphaaaaaaa" ∉ w_dirs (start healthy)) /\
    w_dirs w1 = {["/tmp/tmphaaaaaaa"]} ∪ w_dirs (start healthy).
Proof.
  destruct (mkdtemp env (start healthy)) as [r w1] eqn:Hmk.
  vm_compute in Hmk. injection Hmk as <- <-.
  eexists.
  eapply (COSReader_init_bad_config_leaves_directory env (VDict []) "b" "k"
            (start healthy) (Exc "KeyError" "cos_hmac_keys")).
  - intros w0. reflexivity.
  - vm_compute. reflexivity.
Defined.

(** The key "/data/k". *)
Lemma COSReader_init_absolute_key_witness :
  exists r w',
    COSReader_init env cfg "b" "/data/k" (start healthy) = (Ok r, w') /\
    tmp r = "/data/k".
Proof.
  destruct (COSReader_init env cfg "b" "/data/k" (start healthy)) as [[r|e] w'] eqn:Hrun;
    [|vm_compute in Hrun; discriminate Hrun].
  exists r, w'. split; [reflexivity|].
  exact (proj1 (COSReader_init_absolute_key env cfg "b" "/data/k" (start healthy)
                  r w' eq_refl Hrun)).
Defined.

(** Entering the reader for key "k" on a healthy system. *)
Lemma COSReader_enter_opens_witness :
  exists self' w',
    COSReader_enter env reader_k (start healthy) = (Ok (self', 0), w') /\
    open_file self' = Some 0 /\
    w_calls w' = [CallDownload "b" "k" "/tmp/tmphaaaaaaa/k";
                  CallOpen "/tmp/tmphaaaaaaa/k"].
Proof.
  destruct (COSReader_enter_opens env reader_k (start healthy) healthy healthy
              eq_refl eq_refl)
    as (self' & f & w' & Hrun & -> & Hopen & _ & _ & _ & _ & _ & Hcalls).
  exists self', w'. split; [exact Hrun|]. split; assumption.
Defined.

(** The open is refused: the downloaded file stays. *)
Lemma COSReader_enter_open_fails_leaves_file_witness :
  exists w',
    COSReader_enter env reader_k (start open_denied) = (Raise denied, w') /\
    ("/tmp/tmphaaaaaaa/k" ∈ w_files w').
Proof.
  destruct (COSReader_enter_open_fails_leaves_file env reader_k (start open_denied)
              open_denied denied open_denied eq_refl eq_refl)
    as (w' & Hrun & Hfile & _).
  exists w'. split; assumption.
Defined.

(** Leaving a reader that was not entered. *)
Lemma COSReader_exit_before_enter_witness :
  COSReader_exit env reader_k None (start healthy) =
    (Raise (Exc "AttributeError" "close"), start healthy).
Proof.
  exact (COSReader_exit_before_enter env reader_k None (start healthy) eq_refl).
Defined.

(** In and out on a healthy system: four calls, nothing left. *)
Lemma COSReader_enter_exit_round_trip_witness :
  exists self' w1 w2,
    COSReader_enter env reader_k (start healthy) = (Ok (self', 0), w1) /\
    COSReader_exit env self' None w1 = (Ok VNone, w2) /\
    w_files w2 = w_files (start healthy) ∖ {["/tmp/tmphaaaaaaa/k"]} /\
    w_calls w2 = [CallDownload "b" "k" "/tmp/tmphaaaaaaa/k";
                  CallOpen "/tmp/tmphaaaaaaa/k";
                  CallClose 0;
                  CallRemove "/tmp/tmphaaaaaaa/k"].
Proof.
  destruct (COSReader_enter_exit_round_trip env reader_k None (start healthy)
              healthy healthy healthy healthy eq_refl eq_refl eq_refl eq_refl)
    as (self' & f & w1 & w2 & Henter & Hexit & Hfiles & _ & _ & Hcalls).
  assert (Hf : f = 0).
  { rewrite COSReader_enter_eq in Henter. simpl in Henter.
    injection Henter as _ <- _. reflexivity. }
  subst f.
  exists self', w1, w2. split; [exact Henter|]. split; [exact Hexit|].
  split; assumption.
Defined.

(** The directory of the reader is there after the scope. *)
Lemma with_COSReader_keeps_directories_witness :
  exists r w',
    with_COSReader env entered_k body_idle (entered healthy) = (r, w') /\
    (w_dirs (entered healthy) ⊆ w_dirs w').
Proof.
  destruct (with_COSReader env entered_k body_idle (entered healthy)) as [r w'] eqn:Hrun.
  exists r, w'. split; [reflexivity|].
  apply (with_COSReader_keeps_directories env entered_k body_idle (entered healthy) r w');
    [|exact Hrun].
  intros f w1 res w2 [= _ <-]. reflexivity.
Defined.

(** A scope whose body returns the file object it was given. *)
Lemma with_COSReader_ok_inv_witness :
  exists a w2,
    body_idle 0 (snd (COSReader_enter env reader_k (start healthy))) = (Ok a, w2) /\
    Some 0 = Some a.
Proof.
  destruct (with_COSReader env reader_k body_idle (start healthy)) as [r w3] eqn:Hrun.
  assert (Hr : r = Ok (Some 0)) by (vm_compute in Hrun; injection Hrun as <- _; reflexivity).
  subst r.
  destruct (with_COSReader_ok_inv env reader_k body_idle (start healthy) (Some 0) w3 Hrun)
    as (self & f & w1 & a & w2 & Henter & Hbody & _ & Hx).
  exists a, w2. rewrite Henter. simpl.
  assert (Hf : f = 0).
  { rewrite COSReader_enter_eq in Henter. simpl in Henter.
    injection Henter as _ <- _. reflexivity. }
  subst f. split; assumption.
Defined.
